(** * i3lock: the unlock indicator (unlock_indicator.c)

    A shallow embedding of [draw_image], [free_bg_pixmap], [redraw_screen]
    and [clear_indicator].  The cairo and xcb calls the C code issues are
    recorded, in program order, as a trace of calls; the process-wide
    variables the code reads are the fields of one record.  The scale
    factor and the physical sizes are computed in binary64, as the C code
    computes them; the other [double]s (coordinates taken from font
    metrics) are idealised as exact rationals ([Q]), angles as
    [q + p * pi] with rational [q] and [p]; C [int]s are [Z] with the
    32-bit wrap-around written out. *)

From Stdlib Require Import ZArith QArith Qround List Bool Ascii String Lia.
From Stdlib Require Import DecimalString Reals Qreals Lra Machin.
From Stdlib Require SpecFloat PrimFloat FloatOps.
Import ListNotations.

Open Scope string_scope.
Open Scope list_scope.
Open Scope Z_scope.

(** ** Enumerations of unlock_indicator.h *)

Inductive unlock_state_t : Type :=
| STATE_STARTED
| STATE_KEY_PRESSED
| STATE_KEY_ACTIVE
| STATE_BACKSPACE_ACTIVE
| STATE_NOTHING_TO_DELETE.

Inductive auth_state_t : Type :=
| STATE_AUTH_IDLE
| STATE_AUTH_VERIFY
| STATE_AUTH_LOCK
| STATE_AUTH_WRONG
| STATE_I3LOCK_LOCK_FAILED.

Definition unlock_state_eqb (a b : unlock_state_t) : bool :=
  match a, b with
  | STATE_STARTED, STATE_STARTED
  | STATE_KEY_PRESSED, STATE_KEY_PRESSED
  | STATE_KEY_ACTIVE, STATE_KEY_ACTIVE
  | STATE_BACKSPACE_ACTIVE, STATE_BACKSPACE_ACTIVE
  | STATE_NOTHING_TO_DELETE, STATE_NOTHING_TO_DELETE => true
  | _, _ => false
  end.

Definition auth_state_eqb (a b : auth_state_t) : bool :=
  match a, b with
  | STATE_AUTH_IDLE, STATE_AUTH_IDLE
  | STATE_AUTH_VERIFY, STATE_AUTH_VERIFY
  | STATE_AUTH_LOCK, STATE_AUTH_LOCK
  | STATE_AUTH_WRONG, STATE_AUTH_WRONG
  | STATE_I3LOCK_LOCK_FAILED, STATE_I3LOCK_LOCK_FAILED => true
  | _, _ => false
  end.

(** ** Machine integers *)

Definition to_uint32 (z : Z) : Z := z mod 2 ^ 32.

Definition to_int (z : Z) : Z := (z + 2 ^ 31) mod 2 ^ 32 - 2 ^ 31.

(* Signed overflow is undefined in C; it is modelled as wrap-around and the
   properties below are stated for operands that do not overflow. *)
Definition int_add (a b : Z) : Z := to_int (a + b).
Definition int_sub (a b : Z) : Z := to_int (a - b).
(* C99 integer division truncates towards zero. *)
Definition int_div (a b : Z) : Z := to_int (Z.quot a b).

Definition uint_sub (a b : Z) : Z := to_uint32 (to_uint32 a - to_uint32 b).
Definition uint_div (a b : Z) : Z := to_uint32 a / to_uint32 b.

(** ** Binary64

    [double] as the kernel's binary64 numbers: division and multiplication
    round to nearest, ties to even, as the C code's do. *)

(* An integer converted to double (exact below 2^53). *)
Definition b64_of_Z (z : Z) : PrimFloat.float :=
  FloatOps.SF2Prim
    (SpecFloat.binary_normalize FloatOps.prec FloatOps.emax z 0 false).

(* The least integer that is not below a finite double; the conversion of
   an infinity or a NaN to int is undefined in C and modelled as 0. *)
Definition b64_ceil (x : PrimFloat.float) : Z :=
  match FloatOps.Prim2SF x with
  | SpecFloat.S754_finite s m e =>
      let n := if s then Z.neg m else Z.pos m in
      if 0 <=? e then Z.shiftl n e else - Z.shiftr (- n) (- e)
  | _ => 0
  end.

(* The exact value of a finite double. *)
Definition b64_to_Q (x : PrimFloat.float) : Q :=
  match FloatOps.Prim2SF x with
  | SpecFloat.S754_finite s m e =>
      Qred (inject_Z (if s then Z.neg m else Z.pos m) * Qpower 2 e)
  | _ => 0%Q
  end.

(* ceil() of a double, converted to int. *)
Definition ceil (x : PrimFloat.float) : Z := to_int (b64_ceil x).

(** ** The switch statement

    An arm is a run of [case]/[default] labels followed by statements; its
    body returns the new state and whether control left through [break].
    Control enters at the first arm carrying the scrutinee's label, or at
    [default] when no [case] matches, and runs on into the following arms
    until a [break]. *)

Inductive label (E : Type) : Type :=
| Case (e : E)
| Default.
Arguments Case {E} e.
Arguments Default {E}.

Record arm (E S : Type) : Type := mkArm {
  arm_labels : list (label E);
  arm_body : S -> S * bool
}.
Arguments mkArm {E S}.
Arguments arm_labels {E S}.
Arguments arm_body {E S}.

Fixpoint run_arms {E S : Type} (arms : list (arm E S)) (s : S) : S :=
  match arms with
  | [] => s
  | a :: rest =>
      let '(s', brk) := arm_body a s in
      if brk then s' else run_arms rest s'
  end.

Fixpoint jump {E S : Type} (hit : label E -> bool) (arms : list (arm E S))
  : option (list (arm E S)) :=
  match arms with
  | [] => None
  | a :: rest => if existsb hit (arm_labels a) then Some arms else jump hit rest
  end.

Definition is_case {E : Type} (eqb : E -> E -> bool) (e : E) (l : label E) : bool :=
  match l with
  | Case e' => eqb e e'
  | Default => false
  end.

Definition is_default {E : Type} (l : label E) : bool :=
  match l with
  | Case _ => false
  | Default => true
  end.

Definition switch {E S : Type} (eqb : E -> E -> bool) (e : E)
  (arms : list (arm E S)) (s : S) : S :=
  match jump (is_case eqb e) arms with
  | Some entry => run_arms entry s
  | None =>
      match jump is_default arms with
      | Some entry => run_arms entry s
      | None => s
      end
  end.

(** ** Angles: [q + p * M_PI] *)

Record angle : Type := mkAngle { rat_part : Q; pi_part : Q }.

Definition M_PI : angle := mkAngle 0 1.
Definition angle_of_Q (q : Q) : angle := mkAngle q 0.
Definition angle_add (a b : angle) : angle :=
  mkAngle (Qred (rat_part a + rat_part b)) (Qred (pi_part a + pi_part b)).
Definition angle_sub (a b : angle) : angle :=
  mkAngle (Qred (rat_part a - rat_part b)) (Qred (pi_part a - pi_part b)).
Definition angle_scale (k : Q) (a : angle) : angle :=
  mkAngle (Qred (k * rat_part a)) (Qred (k * pi_part a)).
Definition angle_div (a : angle) (k : Q) : angle := angle_scale (/ k) a.

(** ** The Nord palette and the NORD(n) macro *)

Definition nord (n : nat) : Z * Z * Z :=
  match n with
  | 0%nat => (0x2e, 0x34, 0x40)
  | 1%nat => (0x3b, 0x42, 0x52)
  | 2%nat => (0x43, 0x4c, 0x5e)
  | 3%nat => (0x4c, 0x56, 0x6a)
  | 4%nat => (0xd8, 0xde, 0xe9)
  | 5%nat => (0xe5, 0xe9, 0xf0)
  | 6%nat => (0xec, 0xef, 0xf4)
  | 7%nat => (0x8f, 0xbc, 0xbb)
  | 8%nat => (0x88, 0xc0, 0xd0)
  | 9%nat => (0x81, 0xa1, 0xc1)
  | 10%nat => (0x5e, 0x81, 0xac)
  | 11%nat => (0xbf, 0x61, 0x6a)
  | 12%nat => (0xd0, 0x87, 0x70)
  | 13%nat => (0xeb, 0xcb, 0x8b)
  | 14%nat => (0xa3, 0xbe, 0x8c)
  | _ => (0xb4, 0x8e, 0xad)
  end.

Record rgb : Type := mkRgb { red : Q; green : Q; blue : Q }.

Definition NORD (n : nat) : rgb :=
  let '(r, g, b) := nord n in mkRgb (r # 255) (g # 255) (b # 255).

(** ** Strings: snprintf("%d") and strftime *)

Definition digit_char (d : Z) : ascii := ascii_of_nat (48 + Z.to_nat d).

(* The digits of a non-negative number, most significant first. *)
Fixpoint utoa (fuel : nat) (n : Z) (acc : string) : string :=
  match fuel with
  | O => acc
  | S fuel' =>
      let acc' := String (digit_char (n mod 10)) acc in
      if n / 10 =? 0 then acc' else utoa fuel' (n / 10) acc'
  end.

(* What the conversion "%d" prints for an int (at most ten digits). *)
Definition format_d (n : Z) : string :=
  if n <? 0 then String "-" (utoa 10 (- n) EmptyString) else utoa 10 n EmptyString.

(* snprintf(buf, size, ...) stores at most size - 1 characters and a
   terminating NUL; [formatted] is the complete output of the format. *)
Definition snprintf (size : nat) (formatted : string) : string :=
  substring 0 (size - 1) formatted.

(* Reading a run of decimal digits back (most significant first). *)
Definition digit_value (c : ascii) : option Z :=
  let n := Z.of_nat (nat_of_ascii c) in
  if (48 <=? n) && (n <=? 57) then Some (n - 48) else None.

Fixpoint decimal_value_from (acc : Z) (s : string) : option Z :=
  match s with
  | EmptyString => Some acc
  | String c rest =>
      match digit_value c with
      | Some d => decimal_value_from (10 * acc + d) rest
      | None => None
      end
  end.

Definition decimal_value (s : string) : option Z :=
  match s with
  | EmptyString => None
  | _ => decimal_value_from 0 s
  end.

Record tm : Type := mkTm {
  tm_sec : Z; tm_min : Z; tm_hour : Z; tm_mday : Z; tm_mon : Z;
  tm_year : Z; tm_wday : Z; tm_yday : Z; tm_isdst : Z
}.

Definition two_digits (n : Z) : string :=
  String (digit_char (n / 10 mod 10)) (String (digit_char (n mod 10)) EmptyString).

(* %a and %B in the "C" locale. *)
Definition abbreviated_weekday (wday : Z) : string :=
  nth (Z.to_nat wday) ["Sun"; "Mon"; "Tue"; "Wed"; "Thu"; "Fri"; "Sat"] "?".

Definition full_month (mon : Z) : string :=
  nth (Z.to_nat mon)
      ["January"; "February"; "March"; "April"; "May"; "June"; "July";
       "August"; "September"; "October"; "November"; "December"] "?".

(* strftime(buf, max, ...) stores the result when it fits, NUL included;
   otherwise the array contents are unspecified (modelled as empty). *)
Definition strftime (max : nat) (formatted : string) : string :=
  if (String.length formatted <? max)%nat then formatted else EmptyString.

(* "%H:%M" *)
Definition format_HM (now : tm) : string :=
  (two_digits (tm_hour now) ++ ":" ++ two_digits (tm_min now))%string.

(* "%a, %B %d" *)
Definition format_aBd (now : tm) : string :=
  (abbreviated_weekday (tm_wday now) ++ ", " ++ full_month (tm_mon now)
   ++ " " ++ two_digits (tm_mday now))%string.

(** ** Cairo calls *)

Inductive cairo_ctx : Type := ctx | clk_ctx | xcb_ctx.

Inductive surface : Type := output | clock_output | xcb_output | img_surface.

Record cairo_text_extents_t : Type := mkExtents {
  x_bearing : Q; y_bearing : Q; ext_width : Q; ext_height : Q
}.

Inductive cairo_op : Type :=
| cairo_image_surface_create (s : surface) (w h : Z)
| cairo_xcb_surface_create (pixmap : Z) (w h : Z)
| cairo_scale (sx sy : Q)
| cairo_set_line_width (w : Q)
| cairo_arc (xc yc radius : Q) (angle1 angle2 : angle)
| cairo_set_source_rgb (c : rgb)
| cairo_set_source_surface (s : surface) (x y : Z)
| cairo_set_source_repeat_pattern (s : surface)
| cairo_fill_preserve
| cairo_fill
| cairo_stroke
| cairo_paint
| cairo_rectangle (x y w h : Q)
| cairo_select_font_face (family : string)
| cairo_set_font_size (size : Q)
| cairo_move_to (x y : Q)
| cairo_rel_line_to (dx dy : Q)
| cairo_show_text (text : string)
| cairo_close_path
| cairo_new_sub_path.

Definition call : Type := cairo_ctx * cairo_op.

Definition on (c : cairo_ctx) (ops : list cairo_op) : list call :=
  map (fun op => (c, op)) ops.

Definition emit (op : cairo_op) (trace : list cairo_op) : list cairo_op :=
  trace ++ [op].

(** ** Process-wide variables and the outside world *)

Record Rect : Type := mkRect {
  rect_x : Z; rect_y : Z; rect_width : Z; rect_height : Z
}.

Definition XCB_NONE : Z := 0.

Record globals : Type := mkGlobals {
  debug_mode : bool;
  input_position : Z;
  win : Z;
  last_resolution : Z * Z;
  unlock_indicator : bool;
  clock_visible : bool;
  modifier_string : option string;
  img : bool;
  tile : bool;
  color : string;
  show_failed_attempts : bool;
  failed_attempts : Z;
  xr_resolutions : list Rect;
  unlock_state : unlock_state_t;
  auth_state : auth_state_t;
  bg_pixmap : Z
}.

Definition xr_screens (g : globals) : Z := Z.of_nat (List.length (xr_resolutions g)).

(* What the C library and the X server answer during one redraw. *)
Record world : Type := mkWorld {
  get_dpi_value : Z;
  localtime_now : tm
}.

(** What unlock_indicator.c takes from other files: the numbering of the
    two enumerations (unlock_indicator.h), rand(), the font metrics of
    cairo_text_extents and create_bg_pixmap (xcb.c). *)
Record Platform : Type := mkPlatform {
  unlock_code : unlock_state_t -> Z;
  auth_code : auth_state_t -> Z;
  rand_state : Type;
  rand : rand_state -> Z * rand_state;
  cairo_text_extents : Q -> string -> cairo_text_extents_t;
  xserver : Type;
  create_bg_pixmap : xserver -> Z * Z -> string -> Z * xserver
}.

Definition BUTTON_RADIUS : Z := 90.
Definition BUTTON_SPACE : Z := BUTTON_RADIUS + 5.
Definition BUTTON_CENTER : Z := BUTTON_RADIUS + 5.
Definition BUTTON_DIAMETER : Z := 2 * BUTTON_SPACE.

Definition CLOCK_WIDTH : Z := 240.
Definition CLOCK_HEIGHT : Z := 84.
Definition CLOCK_MARGIN : Z := 24.

(** ** draw_image: the background fill *)

Definition hex_value (c : ascii) : option Z :=
  let n := Z.of_nat (nat_of_ascii c) in
  if (48 <=? n) && (n <=? 57) then Some (n - 48)
  else if (97 <=? n) && (n <=? 102) then Some (n - 87)
  else if (65 <=? n) && (n <=? 70) then Some (n - 55)
  else None.

(* strtol(s, NULL, 16) on a run of hexadecimal digits (the colour has been
   validated by the argument parser): the longest prefix of digits. *)
Fixpoint strtol16_from (acc : Z) (s : string) : Z :=
  match s with
  | EmptyString => acc
  | String c rest =>
      match hex_value c with
      | Some d => strtol16_from (16 * acc + d) rest
      | None => acc
      end
  end.

Definition strtol16 (s : string) : Z := strtol16_from 0 s.

Definition char_at (s : string) (i : nat) : ascii :=
  match get i s with
  | Some c => c
  | None => zero
  end.

Definition strgroups (color : string) : list string :=
  [String (char_at color 0) (String (char_at color 1) EmptyString);
   String (char_at color 2) (String (char_at color 3) EmptyString);
   String (char_at color 4) (String (char_at color 5) EmptyString)].

Definition rgb16 (color : string) : list Z :=
  map (fun group => to_uint32 (strtol16 group)) (strgroups color).

Definition fill_color (color : string) : rgb :=
  mkRgb (nth 0 (rgb16 color) 0 # 255)
        (nth 1 (rgb16 color) 0 # 255)
        (nth 2 (rgb16 color) 0 # 255).

(* [img g] tells whether the image surface pointer is non-NULL; creating the
   pattern, making it the source and setting CAIRO_EXTEND_REPEAT is one
   call of the trace. *)
Definition draw_background (g : globals) (resolution : Z * Z) : list cairo_op :=
  [cairo_set_source_rgb (fill_color (color g));
   cairo_rectangle 0 0 (inject_Z (fst resolution)) (inject_Z (snd resolution));
   cairo_fill]
  ++ (if img g then
        if negb (tile g) then
          [cairo_set_source_surface img_surface 0 0; cairo_paint]
        else
          [cairo_set_source_repeat_pattern img_surface;
           cairo_rectangle 0 0 (inject_Z (fst resolution))
                           (inject_Z (snd resolution));
           cairo_fill]
      else []).

(** ** draw_image: the unlock indicator *)

(* get_dpi_value() / 96.0 *)
Definition scaling_factor (w : world) : PrimFloat.float :=
  PrimFloat.div (b64_of_Z (get_dpi_value w)) (b64_of_Z 96).

Definition button_diameter_physical (w : world) : Z :=
  ceil (PrimFloat.mul (scaling_factor w) (b64_of_Z BUTTON_DIAMETER)).
Definition clock_width_physical (w : world) : Z :=
  ceil (PrimFloat.mul (scaling_factor w) (b64_of_Z CLOCK_WIDTH)).
Definition clock_height_physical (w : world) : Z :=
  ceil (PrimFloat.mul (scaling_factor w) (b64_of_Z CLOCK_HEIGHT)).
Definition margin_physical (w : world) : Z :=
  ceil (PrimFloat.mul (scaling_factor w) (b64_of_Z CLOCK_MARGIN)).

(* unlock_indicator &&
   (unlock_state >= STATE_KEY_PRESSED || auth_state > STATE_AUTH_IDLE) *)
Definition indicator_shown (P : Platform) (g : globals) : bool :=
  unlock_indicator g &&
  ((unlock_code P STATE_KEY_PRESSED <=? unlock_code P (unlock_state g))
   || (auth_code P STATE_AUTH_IDLE <? auth_code P (auth_state g))).

Definition full_circle (radius : Z) : cairo_op :=
  cairo_arc (inject_Z BUTTON_CENTER) (inject_Z BUTTON_CENTER) (inject_Z radius)
            (angle_of_Q 0) (angle_scale 2 M_PI).

Definition draw_disk (w : world) : list cairo_op :=
  [cairo_scale (b64_to_Q (scaling_factor w))
               (b64_to_Q (scaling_factor w));
   cairo_set_line_width 10;
   full_circle BUTTON_RADIUS;
   cairo_set_source_rgb (NORD 1);
   cairo_fill_preserve].

(* switch (auth_state), lines 189-206 *)
Definition ring_color_arms (g : globals)
  : list (arm auth_state_t (list cairo_op)) :=
  [ mkArm [Case STATE_AUTH_VERIFY; Case STATE_AUTH_LOCK]
      (fun t => (emit (cairo_set_source_rgb (NORD 10)) t, true));
    mkArm [Case STATE_AUTH_WRONG; Case STATE_I3LOCK_LOCK_FAILED]
      (fun t => (emit (cairo_set_source_rgb (NORD 11)) t, true));
    mkArm [Case STATE_AUTH_IDLE]
      (fun t =>
         if unlock_state_eqb (unlock_state g) STATE_NOTHING_TO_DELETE
         then (emit (cairo_set_source_rgb (NORD 12)) t, true)
         else (emit (cairo_set_source_rgb (NORD 3)) t, true)) ].

Definition ring_color (g : globals) : list cairo_op :=
  switch auth_state_eqb (auth_state g) (ring_color_arms g) [].

Definition draw_separator : list cairo_op :=
  [cairo_set_source_rgb (NORD 0);
   cairo_set_line_width 2;
   full_circle (BUTTON_RADIUS - 5);
   cairo_stroke;
   cairo_set_line_width 10].

(* switch (auth_state), lines 228-240: after NORD(11) control runs on into
   the default arm. *)
Definition text_color_arms (g : globals)
  : list (arm auth_state_t (list cairo_op)) :=
  [ mkArm [Case STATE_AUTH_VERIFY; Case STATE_AUTH_LOCK]
      (fun t => (emit (cairo_set_source_rgb (NORD 9)) t, true));
    mkArm [Case STATE_AUTH_WRONG; Case STATE_I3LOCK_LOCK_FAILED]
      (fun t => (emit (cairo_set_source_rgb (NORD 11)) t, false));
    mkArm [Default]
      (fun t =>
         (if unlock_state_eqb (unlock_state g) STATE_NOTHING_TO_DELETE
          then emit (cairo_set_source_rgb (NORD 12)) t
          else t, false)) ].

Definition text_color (g : globals) : list cairo_op :=
  switch auth_state_eqb (auth_state g) (text_color_arms g)
         [cairo_set_source_rgb (NORD 4)].

(* switch (auth_state), lines 244-272, on the local variable [text] and
   the trace. *)
Definition text_arms (g : globals)
  : list (arm auth_state_t (option string * list cairo_op)) :=
  [ mkArm [Case STATE_AUTH_VERIFY]
      (fun '(_, t) => ((Some "Verifying…", t), true));
    mkArm [Case STATE_AUTH_LOCK]
      (fun '(_, t) => ((Some "Locking…", t), true));
    mkArm [Case STATE_AUTH_WRONG]
      (fun '(_, t) => ((Some "Wrong!", t), true));
    mkArm [Case STATE_I3LOCK_LOCK_FAILED]
      (fun '(_, t) => ((Some "Lock failed!", t), true));
    mkArm [Default]
      (fun '(text, t) =>
         let text1 :=
           if unlock_state_eqb (unlock_state g) STATE_NOTHING_TO_DELETE
           then Some "No input" else text in
         if show_failed_attempts g && (0 <? failed_attempts g) then
           let text2 :=
             if 999 <? failed_attempts g then Some "> 999"
             else Some (snprintf 4 (format_d (failed_attempts g))) in
           ((text2, emit (cairo_set_source_rgb (NORD 11)) t), true)
         else ((text1, t), true)) ].

Definition select_text (g : globals) : option string * list cairo_op :=
  switch auth_state_eqb (auth_state g) (text_arms g)
         (None, [cairo_select_font_face "Fira Mono"; cairo_set_font_size 24]).

Definition centered (e : cairo_text_extents_t) : Q * Q :=
  (inject_Z BUTTON_CENTER - ((ext_width e / 2) + x_bearing e),
   inject_Z BUTTON_CENTER - ((ext_height e / 2) + y_bearing e))%Q.

Definition draw_text (P : Platform) (text : option string) : list cairo_op :=
  match text with
  | Some s =>
      let '(x, y) := centered (cairo_text_extents P 24 s) in
      [cairo_move_to x y; cairo_show_text s; cairo_close_path]
  | None => []
  end.

Definition draw_modifier (P : Platform) (g : globals) : list cairo_op :=
  match modifier_string g with
  | Some s =>
      if auth_state_eqb (auth_state g) STATE_AUTH_WRONG then
        let '(x, y) := centered (cairo_text_extents P 14 s) in
        [cairo_set_font_size 14; cairo_move_to x (y + 28)%Q;
         cairo_show_text s; cairo_close_path]
      else []
  | None => []
  end.

(* (int)(2 * M_PI * 100) *)
Definition TWO_PI_100 : Z := 628.

(* (rand() % (int)(2 * M_PI * 100)) / 100.0 *)
Definition highlight_start (r : Z) : angle :=
  angle_of_Q (Z.rem r TWO_PI_100 # 100).

Definition highlight_arc (a1 a2 : angle) : cairo_op :=
  cairo_arc (inject_Z BUTTON_CENTER) (inject_Z BUTTON_CENTER)
            (inject_Z BUTTON_RADIUS) a1 a2.

Definition highlight_end (hs : angle) : angle :=
  angle_add hs (angle_div M_PI 3).

Definition highlight_color (s : unlock_state_t) : rgb :=
  if unlock_state_eqb s STATE_KEY_ACTIVE then NORD 7 else NORD 11.

Definition draw_highlight (s : unlock_state_t) (hs : angle) : list cairo_op :=
  [cairo_new_sub_path;
   highlight_arc hs (highlight_end hs);
   cairo_set_source_rgb (highlight_color s);
   cairo_stroke;
   cairo_set_source_rgb (NORD 0);
   highlight_arc hs (angle_add hs (angle_div M_PI 128));
   cairo_stroke;
   highlight_arc (angle_sub (highlight_end hs) (angle_div M_PI 128))
                 (highlight_end hs);
   cairo_stroke].

Definition highlight_active (s : unlock_state_t) : bool :=
  unlock_state_eqb s STATE_KEY_ACTIVE
  || unlock_state_eqb s STATE_BACKSPACE_ACTIVE.

(* Lines 172-300: the disk, the stroked ring, the separator and the text. *)
Definition draw_ring (P : Platform) (g : globals) (w : world) : list cairo_op :=
  let '(text, font_and_color) := select_text g in
  draw_disk w ++ ring_color g ++ [cairo_stroke] ++ draw_separator
  ++ text_color g ++ font_and_color ++ draw_text P text
  ++ draw_modifier P g.

Definition draw_indicator (P : Platform) (g : globals) (w : world)
  (rs : rand_state P) : list cairo_op * rand_state P :=
  if indicator_shown P g then
    if highlight_active (unlock_state g) then
      let '(r, rs') := rand P rs in
      (draw_ring P g w ++ draw_highlight (unlock_state g) (highlight_start r),
       rs')
    else (draw_ring P g w, rs)
  else ([], rs).

(** ** draw_image: the clock *)

Definition time_text (w : world) : string :=
  strftime 8 (format_HM (localtime_now w)).

Definition date_text (w : world) : string :=
  strftime 32 (format_aBd (localtime_now w)).

Definition draw_clock (P : Platform) (g : globals) (w : world) : list cairo_op :=
  if clock_visible g then
    let extents := cairo_text_extents P 48 (time_text w) in
    let x := (inject_Z CLOCK_WIDTH / 2
              - (ext_width extents / 2 + x_bearing extents))%Q in
    let y := (12 + ext_height extents)%Q in
    let extents2 := cairo_text_extents P 16 (date_text w) in
    let x2 := (inject_Z CLOCK_WIDTH / 2
               - (ext_width extents2 / 2 + x_bearing extents2))%Q in
    let y2 := (inject_Z CLOCK_HEIGHT - 12)%Q in
    [cairo_scale (b64_to_Q (scaling_factor w))
                 (b64_to_Q (scaling_factor w));
     cairo_rectangle 1 1 (inject_Z CLOCK_WIDTH - 2) (inject_Z CLOCK_HEIGHT - 2);
     cairo_set_source_rgb (NORD 0);
     cairo_fill_preserve;
     cairo_set_line_width 2;
     cairo_set_source_rgb (NORD 2);
     cairo_stroke;
     cairo_set_source_rgb (NORD 4);
     cairo_select_font_face "Fira Mono";
     cairo_set_font_size 48;
     cairo_move_to x y;
     cairo_show_text (time_text w);
     cairo_close_path;
     cairo_set_line_width 2;
     cairo_set_source_rgb (NORD 7);
     cairo_move_to (x - 4) (y + 4);
     cairo_rel_line_to (ext_width extents + 8) 0;
     cairo_stroke;
     cairo_set_source_rgb (NORD 4);
     cairo_set_font_size 16;
     cairo_move_to x2 y2;
     cairo_show_text (date_text w)]
  else [].

(** ** draw_image: compositing *)

Definition blit (s : surface) (x y w h : Z) : list cairo_op :=
  [cairo_set_source_surface s x y;
   cairo_rectangle (inject_Z x) (inject_Z y) (inject_Z w) (inject_Z h);
   cairo_fill].

Definition indicator_position (w : world) (r : Rect) : Z * Z :=
  let d := button_diameter_physical w in
  (int_add (rect_x r) (int_sub (int_div (rect_width r) 2) (int_div d 2)),
   int_add (rect_y r) (int_sub (int_div (rect_height r) 2) (int_div d 2))).

Definition clock_position (w : world) (r : Rect) : Z * Z :=
  (int_sub (int_sub (int_add (rect_x r) (rect_width r))
                    (clock_width_physical w)) (margin_physical w),
   int_sub (int_sub (int_add (rect_y r) (rect_height r))
                    (clock_height_physical w)) (margin_physical w)).

Definition composite_screen (w : world) (r : Rect) : list cairo_op :=
  let '(x, y) := indicator_position w r in
  let '(x2, y2) := clock_position w r in
  blit output x y (button_diameter_physical w) (button_diameter_physical w)
  ++ blit clock_output x2 y2 (clock_width_physical w) (clock_height_physical w).

(* last_resolution is uint32_t[2]: the arithmetic is unsigned and the
   result is converted to int. *)
Definition fallback_indicator_position (g : globals) (w : world) : Z * Z :=
  let d := button_diameter_physical w in
  (to_int (uint_sub (uint_div (fst (last_resolution g)) 2) (int_div d 2)),
   to_int (uint_sub (uint_div (snd (last_resolution g)) 2) (int_div d 2))).

Definition fallback_clock_position (g : globals) (w : world) : Z * Z :=
  (to_int (uint_sub (uint_sub (fst (last_resolution g))
                              (clock_width_physical w)) (margin_physical w)),
   to_int (uint_sub (uint_sub (snd (last_resolution g))
                              (clock_height_physical w)) (margin_physical w))).

Definition composite_fallback (g : globals) (w : world) : list cairo_op :=
  let '(x, y) := fallback_indicator_position g w in
  let '(x2, y2) := fallback_clock_position g w in
  blit output x y (button_diameter_physical w) (button_diameter_physical w)
  ++ blit clock_output x2 y2 (clock_width_physical w) (clock_height_physical w).

Definition composite (g : globals) (w : world) : list cairo_op :=
  if 0 <? xr_screens g then
    flat_map (composite_screen w) (xr_resolutions g)
  else composite_fallback g w.

(** ** draw_image

    The calls in program order.  Left out: the DEBUG output, the cached
    visual type and the cairo_destroy and cairo_surface_destroy calls at
    the end, which draw nothing. *)

Definition draw_image (P : Platform) (g : globals) (w : world)
  (rs : rand_state P) (bg_pixmap : Z) (resolution : Z * Z)
  : list call * rand_state P :=
  let '(indicator, rs') := draw_indicator P g w rs in
  ([(ctx, cairo_image_surface_create output (button_diameter_physical w)
                                     (button_diameter_physical w));
    (clk_ctx, cairo_image_surface_create clock_output (clock_width_physical w)
                                         (clock_height_physical w));
    (xcb_ctx, cairo_xcb_surface_create bg_pixmap (fst resolution)
                                       (snd resolution))]
   ++ on xcb_ctx (draw_background g resolution)
   ++ on ctx indicator
   ++ on clk_ctx (draw_clock P g w)
   ++ on xcb_ctx (composite g w),
   rs').

(** ** free_bg_pixmap, redraw_screen, clear_indicator *)

Definition set_bg_pixmap (p : Z) (g : globals) : globals :=
  mkGlobals (debug_mode g) (input_position g) (win g) (last_resolution g)
            (unlock_indicator g) (clock_visible g) (modifier_string g) (img g)
            (tile g) (color g) (show_failed_attempts g) (failed_attempts g)
            (xr_resolutions g) (unlock_state g) (auth_state g) p.

Definition set_unlock_state (s : unlock_state_t) (g : globals) : globals :=
  mkGlobals (debug_mode g) (input_position g) (win g) (last_resolution g)
            (unlock_indicator g) (clock_visible g) (modifier_string g) (img g)
            (tile g) (color g) (show_failed_attempts g) (failed_attempts g)
            (xr_resolutions g) s (auth_state g) (bg_pixmap g).

(* Requests sent to the X server, in order. *)
Inductive x_request : Type :=
| x_create_bg_pixmap (resolution : Z * Z) (color : string) (pixmap : Z)
| x_free_pixmap (pixmap : Z)
| x_draw_image (pixmap : Z) (resolution : Z * Z) (calls : list call)
| x_change_back_pixmap (window pixmap : Z)
| x_clear_area (window w h : Z)
| x_flush.

Record process (P : Platform) : Type := mkProcess {
  vars : globals;
  server : xserver P;
  prng : rand_state P
}.
Arguments mkProcess {P}.
Arguments vars {P}.
Arguments server {P}.
Arguments prng {P}.

Definition free_bg_pixmap {P : Platform} (p : process P)
  : process P * list x_request :=
  (mkProcess (set_bg_pixmap XCB_NONE (vars p)) (server p) (prng p),
   [x_free_pixmap (bg_pixmap (vars p))]).

Definition redraw_screen {P : Platform} (w : world) (p : process P)
  : process P * list x_request :=
  let g := vars p in
  let '(g1, server1, allocation) :=
    if bg_pixmap g =? XCB_NONE then
      let '(id, server1) :=
        create_bg_pixmap P (server p) (last_resolution g) (color g) in
      (set_bg_pixmap id g, server1,
       [x_create_bg_pixmap (last_resolution g) (color g) id])
    else (g, server p, []) in
  let '(calls, prng1) :=
    draw_image P g1 w (prng p) (bg_pixmap g1) (last_resolution g1) in
  (mkProcess g1 server1 prng1,
   allocation
   ++ [x_draw_image (bg_pixmap g1) (last_resolution g1) calls;
       x_change_back_pixmap (win g1) (bg_pixmap g1);
       x_clear_area (win g1) (fst (last_resolution g1))
                    (snd (last_resolution g1));
       x_flush]).

Definition clear_indicator {P : Platform} (w : world) (p : process P)
  : process P * list x_request :=
  let g := vars p in
  let g1 :=
    if input_position g =? 0 then set_unlock_state STATE_STARTED g
    else set_unlock_state STATE_KEY_PRESSED g in
  redraw_screen w (mkProcess g1 (server p) (prng p)).

(* What can happen to the process between two observations.  bg_pixmap is
   static in unlock_indicator.c: the rest of the program changes the other
   variables only. *)
Inductive step : Type :=
| do_redraw_screen (w : world)
| do_clear_indicator (w : world)
| do_free_bg_pixmap
| do_elsewhere (update : globals -> globals).

Definition perform {P : Platform} (s : step) (p : process P)
  : process P * list x_request :=
  match s with
  | do_redraw_screen w => redraw_screen w p
  | do_clear_indicator w => clear_indicator w p
  | do_free_bg_pixmap => free_bg_pixmap p
  | do_elsewhere update =>
      (mkProcess (set_bg_pixmap (bg_pixmap (vars p)) (update (vars p)))
                 (server p) (prng p), [])
  end.

Fixpoint run {P : Platform} (steps : list step) (p : process P)
  : process P * list x_request :=
  match steps with
  | [] => (p, [])
  | s :: rest =>
      let '(p1, log1) := perform s p in
      let '(p2, log2) := run rest p1 in
      (p2, log1 ++ log2)
  end.

Definition is_free (s : step) : bool :=
  match s with do_free_bg_pixmap => true | _ => false end.

Definition draws (s : step) : bool :=
  match s with
  | do_redraw_screen _ | do_clear_indicator _ => true
  | _ => false
  end.

(* The pixmaps draw_image was called on, and the allocations, in a log. *)
Definition drawn_pixmaps (log : list x_request) : list Z :=
  flat_map (fun r => match r with
                     | x_draw_image pixmap _ _ => [pixmap]
                     | _ => []
                     end) log.

Definition allocations (log : list x_request) : list (Z * Z * Z) :=
  flat_map (fun r => match r with
                     | x_create_bg_pixmap resolution _ pixmap =>
                         [(fst resolution, snd resolution, pixmap)]
                     | _ => []
                     end) log.

(** ** Pixels: premultiplied ARGB32 and the OVER operator

    cairo_fill with a surface as source and the default operator paints
    [source OVER destination] inside the rectangle. *)

Record pixel : Type := mkPixel { p_alpha : Z; p_red : Z; p_green : Z; p_blue : Z }.

Definition image : Type := Z -> Z -> pixel.

Definition transparent : pixel := mkPixel 0 0 0 0.

(* cairo_image_surface_create: the contents are cleared to 0. *)
Definition cleared : image := fun _ _ => transparent.

Definition valid_pixel (p : pixel) : Prop :=
  0 <= p_alpha p <= 255 /\ 0 <= p_red p <= 255
  /\ 0 <= p_green p <= 255 /\ 0 <= p_blue p <= 255.

(* a * b / 255, rounded, on 8-bit channels. *)
Definition mul_un8 (a b : Z) : Z :=
  let t := a * b + 128 in (t / 256 + t) / 256.

Definition over (src dst : pixel) : pixel :=
  let k := 255 - p_alpha src in
  mkPixel (p_alpha src + mul_un8 (p_alpha dst) k)
          (p_red src + mul_un8 (p_red dst) k)
          (p_green src + mul_un8 (p_green dst) k)
          (p_blue src + mul_un8 (p_blue dst) k).

Definition blit_over (src : image) (x y w h : Z) (dst : image) : image :=
  fun px py =>
    if (x <=? px) && (px <? x + w) && (y <=? py) && (py <? y + h)
    then over (src (px - x) (py - y)) (dst px py)
    else dst px py.

Section Rasterizer.
(* How cairo turns one drawing call into pixels of an image surface. *)
Variable rasterize : cairo_op -> image -> image.

Definition buffer_of (ops : list cairo_op) : image :=
  fold_left (fun i op => rasterize op i) ops cleared.
End Rasterizer.

(** ** Reading a trace *)

(* The source colour in effect after a run of calls on one context. *)
Definition source_in_effect (ops : list cairo_op) : option rgb :=
  fold_left (fun c op => match op with
                         | cairo_set_source_rgb c' => Some c'
                         | _ => c
                         end) ops None.

Definition shown_texts (calls : list call) : list string :=
  flat_map (fun c => match snd c with
                     | cairo_show_text s => [s]
                     | _ => []
                     end) calls.

(* The status text of a frame and the colour it is shown in. *)
Definition status_text (g : globals) : option string := fst (select_text g).

Definition status_text_color (g : globals) : option rgb :=
  source_in_effect (text_color g ++ snd (select_text g)).


(** ** The specification's tables *)

Definition accent_blue : rgb := NORD 10.
Definition accent_red : rgb := NORD 11.
Definition accent_orange : rgb := NORD 12.
Definition neutral_gray : rgb := NORD 3.

(* Section 4.1, item 2. *)
Definition spec_ring_color (a : auth_state_t) (s : unlock_state_t) : rgb :=
  match a with
  | STATE_AUTH_VERIFY | STATE_AUTH_LOCK => accent_blue
  | STATE_AUTH_WRONG | STATE_I3LOCK_LOCK_FAILED => accent_red
  | STATE_AUTH_IDLE =>
      match s with
      | STATE_NOTHING_TO_DELETE => accent_orange
      | _ => neutral_gray
      end
  end.

Definition counter_display (n : Z) : string :=
  if 999 <? n then "> 999" else format_d n.

Definition spec_auth_text (a : auth_state_t) : option string :=
  match a with
  | STATE_AUTH_IDLE => None
  | STATE_AUTH_VERIFY => Some "Verifying…"
  | STATE_AUTH_LOCK => Some "Locking…"
  | STATE_AUTH_WRONG => Some "Wrong!"
  | STATE_I3LOCK_LOCK_FAILED => Some "Lock failed!"
  end.

Definition counter_applies (g : globals) : bool :=
  show_failed_attempts g && (0 <? failed_attempts g).

(* Section 4.1, item 4, in the order it gives: the AuthState text, then
   "No input", then the failed-attempt counter. *)
Definition spec_status_text (g : globals) : option string :=
  match spec_auth_text (auth_state g) with
  | Some s => Some s
  | None =>
      if unlock_state_eqb (unlock_state g) STATE_NOTHING_TO_DELETE
      then Some "No input"
      else if counter_applies g
           then Some (counter_display (failed_attempts g))
           else None
  end.

(* The same with the last two swapped: within STATE_AUTH_IDLE the counter
   wins over "No input". *)
Definition amended_status_text (g : globals) : option string :=
  match spec_auth_text (auth_state g) with
  | Some s => Some s
  | None =>
      if counter_applies g
      then Some (counter_display (failed_attempts g))
      else if unlock_state_eqb (unlock_state g) STATE_NOTHING_TO_DELETE
           then Some "No input"
           else None
  end.

(* The numbering of the enumerators that line 171 relies on:
   STATE_STARTED alone lies below STATE_KEY_PRESSED, and STATE_AUTH_IDLE
   lies below every other auth state. *)
Definition header_order (P : Platform) : Prop :=
  unlock_code P STATE_STARTED < unlock_code P STATE_KEY_PRESSED
  /\ (forall s, s <> STATE_STARTED ->
                unlock_code P STATE_KEY_PRESSED <= unlock_code P s)
  /\ (forall a, a <> STATE_AUTH_IDLE ->
                auth_code P STATE_AUTH_IDLE < auth_code P a).

(** ** A platform and states to evaluate the model on *)

(** Modelled from the spec: unlock_indicator.h is not among the sources.
    The spec names the five enumerators of each type; they are numbered
    here from 0 in the order of i3lock's header, STATE_STARTED and
    STATE_AUTH_IDLE first. *)
Definition i3lock_unlock_code (s : unlock_state_t) : Z :=
  match s with
  | STATE_STARTED => 0
  | STATE_KEY_PRESSED => 1
  | STATE_KEY_ACTIVE => 2
  | STATE_BACKSPACE_ACTIVE => 3
  | STATE_NOTHING_TO_DELETE => 4
  end.

Definition i3lock_auth_code (a : auth_state_t) : Z :=
  match a with
  | STATE_AUTH_IDLE => 0
  | STATE_AUTH_VERIFY => 1
  | STATE_AUTH_LOCK => 2
  | STATE_AUTH_WRONG => 3
  | STATE_I3LOCK_LOCK_FAILED => 4
  end.

(* A linear congruential rand() with RAND_MAX = 2^31 - 1. *)
Definition lcg_rand (seed : Z) : Z * Z :=
  let next := (seed * 1103515245 + 12345) mod 2 ^ 31 in (next, next).

(* Metrics of a fixed-pitch font: 3/5 em per character. *)
Definition mono_extents (size : Q) (s : string) : cairo_text_extents_t :=
  mkExtents 0 (- size)
            (size * (3 # 5) * inject_Z (Z.of_nat (String.length s))) size.

(* Pixmap identifiers handed out in sequence, starting after XCB_NONE. *)
Definition sequential_pixmap (next : Z) (resolution : Z * Z) (color : string)
  : Z * Z :=
  (Z.max 1 next, Z.max 1 next + 1).

Definition sample_platform : Platform :=
  mkPlatform i3lock_unlock_code i3lock_auth_code Z lcg_rand mono_extents
             Z sequential_pixmap.

Definition sample_globals (s : unlock_state_t) (a : auth_state_t)
  (show_failed : bool) (failed : Z) (screens : list Rect) : globals :=
  mkGlobals false 0 77 (1920, 1080) true true None false false "2e3440"
            show_failed failed screens s a XCB_NONE.

Definition sample_world (hour minute : Z) : world :=
  mkWorld 96 (mkTm 0 minute hour 30 9 126 5 302 0).

Definition sample_process (g : globals) : process sample_platform :=
  @mkProcess sample_platform g 1 42.

(** ** Checking the counter display on 1..999 *)

Definition small_counters : list Z := map Z.of_nat (seq 1 999).

(* For one counter value: the 4-byte buffer holds the whole output of "%d",
   which is at most three characters, reads back as the value and is the
   decimal numeral the standard library prints for it. *)
Definition counter_fits (n : Z) : bool :=
  String.eqb (snprintf 4 (format_d n)) (format_d n)
  && (String.length (format_d n) <=? 3)%nat
  && match decimal_value (format_d n) with
     | Some v => v =? n
     | None => false
     end
  && String.eqb (format_d n) (NilZero.string_of_int (Z.to_int n)).

(** ** Ranges of the inputs of the compositor *)

(* A monitor as RandR reports it: int16_t position, extent below 2^30. *)
Definition rect_in_range (r : Rect) : Prop :=
  - 2 ^ 15 <= rect_x r < 2 ^ 15 /\ - 2 ^ 15 <= rect_y r < 2 ^ 15
  /\ 0 <= rect_width r < 2 ^ 30 /\ 0 <= rect_height r < 2 ^ 30.

Definition dpi_in_range (w : world) : Prop := 0 <= get_dpi_value w <= 2 ^ 16.

(* The rectangle used when RandR reports no monitor. *)
Definition fallback_rect (g : globals) : Rect :=
  mkRect 0 0 (fst (last_resolution g)) (snd (last_resolution g)).

(* Twice the offset between the centre of a buffer of extent [size] placed
   at [pos] and the centre of the interval of extent [extent] at [origin]. *)
Definition twice_center_offset (pos size origin extent : Z) : Z :=
  (2 * pos + size) - (2 * origin + extent).

(** ** Inputs of a frame *)

(* The inputs the idempotence property of the specification lists: the
   two states, the counter, the monitor geometry and the scale factor (the
   PRNG state is an argument of draw_image). *)
Definition listed_inputs_agree (g1 : globals) (w1 : world)
  (g2 : globals) (w2 : world) : Prop :=
  auth_state g1 = auth_state g2
  /\ unlock_state g1 = unlock_state g2
  /\ failed_attempts g1 = failed_attempts g2
  /\ xr_resolutions g1 = xr_resolutions g2
  /\ last_resolution g1 = last_resolution g2
  /\ get_dpi_value w1 = get_dpi_value w2.

(* The configuration draw_image reads besides them. *)
Definition configuration_agrees (g1 g2 : globals) : Prop :=
  unlock_indicator g1 = unlock_indicator g2
  /\ clock_visible g1 = clock_visible g2
  /\ show_failed_attempts g1 = show_failed_attempts g2
  /\ modifier_string g1 = modifier_string g2
  /\ img g1 = img g2
  /\ tile g1 = tile g2
  /\ color g1 = color g2.

(* The part of the wall-clock time the two strftime formats print. *)
Definition clock_reading_agrees (w1 w2 : world) : Prop :=
  tm_hour (localtime_now w1) = tm_hour (localtime_now w2)
  /\ tm_min (localtime_now w1) = tm_min (localtime_now w2)
  /\ tm_wday (localtime_now w1) = tm_wday (localtime_now w2)
  /\ tm_mon (localtime_now w1) = tm_mon (localtime_now w2)
  /\ tm_mday (localtime_now w1) = tm_mday (localtime_now w2).

(** ** Reading a frame and a request log *)

Definition cairo_ctx_eqb (a b : cairo_ctx) : bool :=
  match a, b with
  | ctx, ctx | clk_ctx, clk_ctx | xcb_ctx, xcb_ctx => true
  | _, _ => false
  end.

(* The calls made on one context, in order. *)
Definition calls_on (c : cairo_ctx) (calls : list call) : list cairo_op :=
  map snd (filter (fun k => cairo_ctx_eqb (fst k) c) calls).

(* cairo_new_sub_path is called at line 307 only: it marks a highlight. *)
Definition is_new_sub_path (op : cairo_op) : bool :=
  match op with
  | cairo_new_sub_path => true
  | _ => false
  end.

Definition has_highlight (calls : list call) : bool :=
  existsb is_new_sub_path (calls_on ctx calls).

Definition frames (log : list x_request) : list (list call) :=
  flat_map (fun r => match r with
                     | x_draw_image _ _ calls => [calls]
                     | _ => []
                     end) log.

(* Replaying a request log against the pixmap that is live ([XCB_NONE]:
   none).  A pixmap is created only while none is live and is never
   XCB_NONE; draw_image and the window background use the live pixmap only;
   a free names the live pixmap.  [None]: the log breaks this discipline;
   [Some live']: it keeps it and ends with [live'] live. *)
Fixpoint replay (live : Z) (log : list x_request) : option Z :=
  match log with
  | [] => Some live
  | x_create_bg_pixmap _ _ id :: rest =>
      if (live =? XCB_NONE) && negb (id =? XCB_NONE)
      then replay id rest else None
  | x_free_pixmap id :: rest =>
      if id =? live then replay XCB_NONE rest else None
  | x_draw_image id _ _ :: rest =>
      if (id =? live) && negb (live =? XCB_NONE)
      then replay live rest else None
  | x_change_back_pixmap _ id :: rest =>
      if (id =? live) && negb (live =? XCB_NONE)
      then replay live rest else None
  | _ :: rest => replay live rest
  end.

(* An assignment to last_resolution made elsewhere in the program. *)
Definition set_last_resolution (r : Z * Z) (g : globals) : globals :=
  mkGlobals (debug_mode g) (input_position g) (win g) r
            (unlock_indicator g) (clock_visible g) (modifier_string g) (img g)
            (tile g) (color g) (show_failed_attempts g) (failed_attempts g)
            (xr_resolutions g) (unlock_state g) (auth_state g) (bg_pixmap g).

(** ** The texts of the indicator *)

Definition status_literals : list string :=
  ["Verifying…"; "Locking…"; "Wrong!"; "Lock failed!"; "No input"; "> 999"].

Definition text_list (text : option string) : list string :=
  match text with
  | Some s => [s]
  | None => []
  end.

(* The modifier string when line 287 lets it through. *)
Definition modifier_shown (g : globals) : option string :=
  if auth_state_eqb (auth_state g) STATE_AUTH_WRONG
  then modifier_string g else None.

(** ** Writing a colour in hexadecimal

    The inverse of what lines 144-149 read: two digits per component, in
    lower or upper case. *)

Definition hex_digit (upper : bool) (d : Z) : ascii :=
  if d <? 10 then ascii_of_nat (48 + Z.to_nat d)
  else if upper then ascii_of_nat (55 + Z.to_nat d)
       else ascii_of_nat (87 + Z.to_nat d).

Definition hex_byte (upper : bool) (b : Z) : string :=
  String (hex_digit upper (b / 16))
         (String (hex_digit upper (b mod 16)) EmptyString).

Definition hex_color (upper : bool) (r g b : Z) : string :=
  (hex_byte upper r ++ hex_byte upper g ++ hex_byte upper b)%string.

Definition bytes : list Z := map Z.of_nat (seq 0 256).

Definition byte_reads_back (b : Z) : bool :=
  (to_uint32 (strtol16 (hex_byte false b)) =? b)
  && (to_uint32 (strtol16 (hex_byte true b)) =? b).

(** ** Checking two-digit fields and the date on their ranges *)

Definition two_digit_values : list Z := map Z.of_nat (seq 0 100).

Definition two_digits_read_back (n : Z) : bool :=
  match decimal_value (two_digits n) with
  | Some v => v =? n
  | None => false
  end.

Definition week_days : list Z := map Z.of_nat (seq 0 7).
Definition months : list Z := map Z.of_nat (seq 0 12).

(* The length of "%a, %B %d" without the terminator, for one week day and
   one month (the day of the month takes two characters). *)
Definition date_length (wday mon : Z) : nat :=
  String.length (abbreviated_weekday wday ++ ", " ++ full_month mon
                 ++ " " ++ two_digits 0)%string.

Definition date_fits (wday : Z) : bool :=
  forallb (fun mon => (date_length wday mon <=? 17)%nat) months.

(** ** Presenting a frame

    Every draw_image in a request log is followed at once by the request
    that makes its pixmap the window background, a clear of the whole
    resolution and a flush; these three requests occur nowhere else. *)
Fixpoint presented (log : list x_request) : bool :=
  match log with
  | [] => true
  | x_draw_image pixmap resolution _
      :: x_change_back_pixmap _ pixmap'
      :: x_clear_area _ w h
      :: x_flush :: rest =>
      (pixmap' =? pixmap) && (w =? fst resolution) && (h =? snd resolution)
      && presented rest
  | x_create_bg_pixmap _ _ _ :: rest => presented rest
  | x_free_pixmap _ :: rest => presented rest
  | _ => false
  end.

(** ** Checking the physical sizes on every dpi value in range *)

Fixpoint forall_from (fuel : nat) (n : Z) (check : Z -> bool) : bool :=
  match fuel with
  | O => true
  | S fuel' => check n && forall_from fuel' (n + 1) check
  end.

Definition world_at (dpi : Z) : world := mkWorld dpi (mkTm 0 0 0 1 0 70 4 0 0).

(* [physical] is at least [logical * dpi / 96] and at most one above it. *)
Definition size_in_band (dpi logical physical : Z) : bool :=
  (dpi * logical <=? 96 * physical) && (96 * (physical - 1) <=? dpi * logical).

(* The four sizes before their conversion to int, for one dpi value; the
   doubles of the constants are passed in so that they are computed once. *)
Definition sizes_in_band (c96 diameter width height margin : PrimFloat.float)
  (dpi : Z) : bool :=
  let factor := PrimFloat.div (b64_of_Z dpi) c96 in
  size_in_band dpi BUTTON_DIAMETER (b64_ceil (PrimFloat.mul factor diameter))
  && size_in_band dpi CLOCK_WIDTH (b64_ceil (PrimFloat.mul factor width))
  && size_in_band dpi CLOCK_HEIGHT (b64_ceil (PrimFloat.mul factor height))
  && size_in_band dpi CLOCK_MARGIN (b64_ceil (PrimFloat.mul factor margin)).

Definition sizes_in_band_up_to (count : nat) : bool :=
  forall_from count 0
    (sizes_in_band (b64_of_Z 96) (b64_of_Z BUTTON_DIAMETER)
                   (b64_of_Z CLOCK_WIDTH) (b64_of_Z CLOCK_HEIGHT)
                   (b64_of_Z CLOCK_MARGIN)).

(** * Properties *)

(** ** The enumerations and the sample platform *)

Lemma unlock_state_eqb_spec (a b : unlock_state_t) :
  unlock_state_eqb a b = true <-> a = b.
Proof. destruct a, b; simpl; split; congruence. Qed.

Lemma auth_state_eqb_spec (a b : auth_state_t) :
  auth_state_eqb a b = true <-> a = b.
Proof. destruct a, b; simpl; split; congruence. Qed.

Lemma sample_platform_order : header_order sample_platform.
Proof.
  unfold header_order, sample_platform; simpl.
  split; [|split].
  - lia.
  - intros [] H; simpl; try lia; congruence.
  - intros [] H; simpl; try lia; congruence.
Qed.

(** ** The texts of a trace *)

Lemma select_text_cases (g : globals) :
  select_text g =
  match auth_state g with
  | STATE_AUTH_IDLE =>
      if counter_applies g
      then (Some (if 999 <? failed_attempts g then "> 999"
                  else snprintf 4 (format_d (failed_attempts g))),
            [cairo_select_font_face "Fira Mono"; cairo_set_font_size 24;
             cairo_set_source_rgb (NORD 11)])
      else (if unlock_state_eqb (unlock_state g) STATE_NOTHING_TO_DELETE
            then Some "No input" else None,
            [cairo_select_font_face "Fira Mono"; cairo_set_font_size 24])
  | a => (spec_auth_text a,
          [cairo_select_font_face "Fira Mono"; cairo_set_font_size 24])
  end.
Proof.
  unfold select_text, switch, counter_applies.
  destruct (auth_state g); simpl; try reflexivity.
  destruct (show_failed_attempts g && (0 <? failed_attempts g));
    [destruct (999 <? failed_attempts g)|]; reflexivity.
Qed.

Lemma shown_texts_app (l1 l2 : list call) :
  shown_texts (l1 ++ l2) = shown_texts l1 ++ shown_texts l2.
Proof. apply flat_map_app. Qed.

Lemma on_app (c : cairo_ctx) (l1 l2 : list cairo_op) :
  on c (l1 ++ l2) = on c l1 ++ on c l2.
Proof. apply map_app. Qed.

Lemma draw_ring_texts (P : Platform) (g : globals) (w : world) :
  shown_texts (on ctx (draw_ring P g w))
  = text_list (status_text g) ++ text_list (modifier_shown g).
Proof.
  unfold draw_ring, status_text, modifier_shown. rewrite select_text_cases.
  unfold ring_color, text_color, switch, draw_text, draw_modifier,
    ring_color_arms, text_color_arms.
  destruct (auth_state g), (unlock_state g), (counter_applies g),
    (modifier_string g); reflexivity.
Qed.

(** ** Ring visibility *)

Lemma indicator_shown_iff (P : Platform) (g : globals) :
  header_order P ->
  unlock_indicator g = true ->
  indicator_shown P g = true <->
  (unlock_state g <> STATE_STARTED \/ auth_state g <> STATE_AUTH_IDLE).
Proof.
  intros (Hstarted & Hothers & Hidle) Hon.
  unfold indicator_shown. rewrite Hon. simpl.
  rewrite orb_true_iff, Z.leb_le, Z.ltb_lt.
  split.
  - intros [Hle | Hlt].
    + left. intros Heq. rewrite Heq in Hle. lia.
    + right. intros Heq. rewrite Heq in Hlt. lia.
  - intros [Hs | Ha].
    + left. apply Hothers, Hs.
    + right. apply Hidle, Ha.
Qed.



(** ** Ring colour *)

(** C3. The ring-colour switch sets exactly one source colour for every
    auth_state: accent-blue for VERIFY and LOCK, accent-red for WRONG and
    LOCK_FAILED, accent-orange for IDLE with STATE_NOTHING_TO_DELETE and
    neutral-gray for IDLE otherwise.  Every auth_state has a case label of
    its own and every arm leaves through break: none runs on into another
    arm's colour. *)
Theorem ring_color_total (g : globals) :
  ring_color g =
  [cairo_set_source_rgb (spec_ring_color (auth_state g) (unlock_state g))]
  /\ (forall a, jump (is_case auth_state_eqb a) (ring_color_arms g) <> None)
  /\ (forall a t, In a (ring_color_arms g) -> snd (arm_body a t) = true).
Proof.
  split; [|split].
  - unfold ring_color, switch.
    destruct (auth_state g) eqn:Ha; simpl; try reflexivity.
    destruct (unlock_state g); reflexivity.
  - intros []; simpl; discriminate.
  - intros a t [Ha | [Ha | [Ha | []]]]; subst a; simpl; try reflexivity.
    destruct (unlock_state_eqb _ _); reflexivity.
Qed.

(** ** Status text *)


Lemma in_small_counters (n : Z) : 1 <= n <= 999 -> In n small_counters.
Proof.
  intros Hn. unfold small_counters.
  rewrite <- (Z2Nat.id n) by lia.
  apply in_map, in_seq. lia.
Qed.

Lemma small_counters_fit : forallb counter_fits small_counters = true.
Proof. vm_compute. reflexivity. Qed.

Lemma counter_fits_small (n : Z) :
  1 <= n <= 999 ->
  snprintf 4 (format_d n) = format_d n
  /\ (String.length (format_d n) <= 3)%nat
  /\ decimal_value (format_d n) = Some n
  /\ format_d n = NilZero.string_of_int (Z.to_int n).
Proof.
  intros Hn.
  pose proof small_counters_fit as Hall.
  rewrite forallb_forall in Hall.
  specialize (Hall n (in_small_counters n Hn)).
  unfold counter_fits in Hall.
  repeat rewrite andb_true_iff in Hall.
  destruct Hall as [[[Hfit Hlen] Hval] Hstd].
  apply String.eqb_eq in Hfit. apply String.eqb_eq in Hstd.
  apply Nat.leb_le in Hlen.
  destruct (decimal_value (format_d n)) as [v|]; [|discriminate].
  apply Z.eqb_eq in Hval. subst v.
  auto.
Qed.

(** C2 (as the spec words it, refuted).  In STATE_AUTH_IDLE with
    STATE_NOTHING_TO_DELETE, the counter display enabled and one failed
    attempt, draw_image shows the counter, not the "No input" text that the
    stated priority selects. *)
Lemma status_text_priority_counterexample :
  let g := sample_globals STATE_NOTHING_TO_DELETE STATE_AUTH_IDLE true 1 [] in
  status_text g = Some "1"
  /\ spec_status_text g = Some "No input"
  /\ status_text g <> spec_status_text g.
Proof.
  simpl. split; [reflexivity|]. split; [reflexivity|].
  vm_compute. discriminate.
Qed.

(** C2 (amended).  The AuthState text takes precedence over everything
    else; in STATE_AUTH_IDLE the failed-attempt counter (feature enabled,
    counter above 0) takes precedence over "No input"; otherwise there is
    no text.  The counter is shown in accent-red; "Verifying…" and
    "Locking…" in nord9, a lighter blue than the ring's nord10; "No input"
    in accent-orange, the ring's colour; "Wrong!" and "Lock failed!" in
    accent-red, the ring's colour, when unlock_state is not
    STATE_NOTHING_TO_DELETE. *)
Theorem status_text_selection (g : globals) :
  status_text g = amended_status_text g
  /\ (auth_state g = STATE_AUTH_IDLE -> counter_applies g = true ->
      status_text_color g = Some accent_red)
  /\ (auth_state g = STATE_AUTH_VERIFY \/ auth_state g = STATE_AUTH_LOCK ->
      status_text_color g = Some (NORD 9)
      /\ source_in_effect (ring_color g) = Some (NORD 10))
  /\ (auth_state g = STATE_AUTH_IDLE -> counter_applies g = false ->
      unlock_state g = STATE_NOTHING_TO_DELETE ->
      status_text_color g = Some accent_orange
      /\ source_in_effect (ring_color g) = Some accent_orange)
  /\ (auth_state g = STATE_AUTH_WRONG
      \/ auth_state g = STATE_I3LOCK_LOCK_FAILED ->
      unlock_state g <> STATE_NOTHING_TO_DELETE ->
      status_text_color g = Some accent_red
      /\ source_in_effect (ring_color g) = Some accent_red).
Proof.
  unfold status_text, status_text_color, amended_status_text.
  rewrite select_text_cases.
  unfold ring_color, text_color, switch, counter_display.
  split.
  - destruct (auth_state g); simpl; try reflexivity.
    destruct (counter_applies g) eqn:Hc; simpl.
    + destruct (999 <? failed_attempts g) eqn:Hbig; [reflexivity|].
      unfold counter_applies in Hc.
      apply andb_true_iff in Hc. destruct Hc as [_ Hpos].
      apply Z.ltb_lt in Hpos. apply Z.ltb_ge in Hbig.
      f_equal. apply counter_fits_small. lia.
    + destruct (unlock_state_eqb (unlock_state g) STATE_NOTHING_TO_DELETE);
        reflexivity.
  - unfold text_color_arms, ring_color_arms.
    destruct (auth_state g) eqn:Ha, (unlock_state g) eqn:Hs,
             (counter_applies g) eqn:Hc;
      simpl; repeat split; intros;
      repeat match goal with
             | H : _ \/ _ |- _ => destruct H
             end;
      try discriminate; try congruence;
      destruct (999 <? failed_attempts g); reflexivity.
Qed.

Lemma status_text_selection_witness :
  let g := sample_globals STATE_NOTHING_TO_DELETE STATE_AUTH_IDLE true 1 [] in
  status_text g = Some "1" /\ status_text_color g = Some accent_red.
Proof.
  simpl. split.
  - exact (proj1 (status_text_selection
             (sample_globals STATE_NOTHING_TO_DELETE STATE_AUTH_IDLE true 1 []))).
  - exact (proj1 (proj2 (status_text_selection
             (sample_globals STATE_NOTHING_TO_DELETE STATE_AUTH_IDLE true 1 [])))
             eq_refl eq_refl).
Defined.

(** ** The failed-attempt counter *)

(** C5. With the failed-attempt display enabled and no AuthState text
    (STATE_AUTH_IDLE), for a non-negative counter: 0 gives no text (when
    "No input" does not apply either), 1..999 gives the decimal numeral of
    the counter, and every value above 999 gives the literal "> 999". *)
Theorem failed_attempts_display (g : globals) :
  auth_state g = STATE_AUTH_IDLE ->
  show_failed_attempts g = true ->
  0 <= failed_attempts g ->
  (failed_attempts g = 0 -> unlock_state g <> STATE_NOTHING_TO_DELETE ->
   status_text g = None)
  /\ (1 <= failed_attempts g <= 999 ->
      status_text g = Some (format_d (failed_attempts g))
      /\ format_d (failed_attempts g) =
         NilZero.string_of_int (Z.to_int (failed_attempts g))
      /\ decimal_value (format_d (failed_attempts g)) =
         Some (failed_attempts g))
  /\ (999 < failed_attempts g -> status_text g = Some "> 999").
Proof.
  intros Ha Hshow Hnonneg.
  unfold status_text. rewrite select_text_cases, Ha.
  unfold counter_applies. rewrite Hshow. simpl.
  split; [|split].
  - intros H0 Hs. rewrite H0. simpl.
    destruct (unlock_state g); try reflexivity. congruence.
  - intros Hn.
    destruct (counter_fits_small _ Hn) as (Hfit & _ & Hval & Hstd).
    replace (0 <? failed_attempts g) with true by (symmetry; apply Z.ltb_lt; lia).
    replace (999 <? failed_attempts g) with false
      by (symmetry; apply Z.ltb_ge; lia).
    simpl. rewrite Hfit. auto.
  - intros Hn.
    replace (0 <? failed_attempts g) with true by (symmetry; apply Z.ltb_lt; lia).
    replace (999 <? failed_attempts g) with true by (symmetry; apply Z.ltb_lt; lia).
    reflexivity.
Qed.

Lemma failed_attempts_display_witness :
  status_text (sample_globals STATE_KEY_PRESSED STATE_AUTH_IDLE true 1000 [])
  = Some "> 999".
Proof.
  apply (failed_attempts_display
           (sample_globals STATE_KEY_PRESSED STATE_AUTH_IDLE true 1000 [])
           eq_refl eq_refl); simpl; lia.
Defined.

(** C9. In the counter branch with 1 <= failed_attempts <= 999, snprintf
    into the 4-byte buffer stores the whole output of "%d": at most three
    characters and the terminator, the decimal numeral of the counter. *)
Theorem counter_buffer_never_truncates (g : globals) :
  auth_state g = STATE_AUTH_IDLE ->
  show_failed_attempts g = true ->
  1 <= failed_attempts g <= 999 ->
  status_text g = Some (snprintf 4 (format_d (failed_attempts g)))
  /\ snprintf 4 (format_d (failed_attempts g)) = format_d (failed_attempts g)
  /\ (String.length (format_d (failed_attempts g)) + 1 <= 4)%nat
  /\ format_d (failed_attempts g) =
     NilZero.string_of_int (Z.to_int (failed_attempts g)).
Proof.
  intros Ha Hshow Hn.
  destruct (counter_fits_small _ Hn) as (Hfit & Hlen & _ & Hstd).
  repeat split; try assumption; try lia.
  unfold status_text. rewrite select_text_cases, Ha.
  unfold counter_applies. rewrite Hshow.
  replace (0 <? failed_attempts g) with true by (symmetry; apply Z.ltb_lt; lia).
  replace (999 <? failed_attempts g) with false
    by (symmetry; apply Z.ltb_ge; lia).
  reflexivity.
Qed.

Lemma counter_buffer_never_truncates_witness :
  status_text (sample_globals STATE_KEY_PRESSED STATE_AUTH_IDLE true 999 [])
  = Some (snprintf 4 (format_d 999))
  /\ snprintf 4 (format_d 999) = format_d 999.
Proof.
  pose proof (counter_buffer_never_truncates
                (sample_globals STATE_KEY_PRESSED STATE_AUTH_IDLE true 999 [])
                eq_refl eq_refl) as H.
  simpl in H.
  destruct H as (Htext & Hfit & _); [lia|].
  split; assumption.
Defined.

(** ** The highlight arc *)

Lemma PI_bounds : (3141 / 1000 < PI < 3143 / 1000)%R.
Proof.
  pose proof (PI_2_3_7_ineq 1) as [Hlo Hhi].
  unfold sum_f_R0, tg_alt, PI_2_3_7_tg, Ratan_seq in Hlo, Hhi.
  simpl in Hlo, Hhi.
  split; lra.
Qed.

(* The constant that (int)(2 * M_PI * 100) truncates to. *)
Lemma TWO_PI_100_truncation :
  (IZR TWO_PI_100 <= 2 * PI * 100 < IZR TWO_PI_100 + 1)%R.
Proof.
  pose proof PI_bounds. unfold TWO_PI_100. split; lra.
Qed.








(** ** Placement on the monitors *)

Lemma to_int_small (z : Z) : - 2 ^ 31 <= z < 2 ^ 31 -> to_int z = z.
Proof.
  intros Hz. unfold to_int.
  rewrite Z.mod_small by lia. lia.
Qed.

Lemma to_int_uint_sub (a b : Z) :
  - 2 ^ 31 <= a - b < 2 ^ 31 -> to_int (uint_sub a b) = a - b.
Proof.
  intros Hab. unfold uint_sub, to_uint32, to_int.
  rewrite <- Zminus_mod.
  rewrite <- (Z.add_mod_idemp_l ((a - b) mod 2 ^ 32)) by lia.
  rewrite Z.mod_mod by lia.
  rewrite Z.add_mod_idemp_l by lia.
  rewrite Z.mod_small by lia. lia.
Qed.

Lemma forall_from_spec (fuel : nat) (n : Z) (check : Z -> bool) :
  forall_from fuel n check = true ->
  forall z, n <= z < n + Z.of_nat fuel -> check z = true.
Proof.
  revert n. induction fuel as [|fuel IH]; intros n Hall z Hz.
  - simpl in Hz. lia.
  - simpl in Hall. apply andb_true_iff in Hall. destruct Hall as [Hn Hrest].
    destruct (Z.eq_dec z n) as [-> | Hne]; [exact Hn|].
    apply (IH (n + 1) Hrest). lia.
Qed.

(* Every dpi value of dpi_in_range, evaluated. *)
Lemma sizes_checked : sizes_in_band_up_to (Z.to_nat 65537) = true.
Proof. vm_compute. reflexivity. Qed.

Lemma size_in_band_spec (dpi logical raw : Z) :
  0 <= dpi <= 2 ^ 16 -> 0 <= logical <= 240 ->
  size_in_band dpi logical raw = true ->
  dpi * logical <= 96 * to_int raw
  /\ 96 * (to_int raw - 1) <= dpi * logical.
Proof.
  intros Hdpi Hlogical Hband.
  unfold size_in_band in Hband.
  apply andb_true_iff in Hband. destruct Hband as [Hlow Hhigh].
  apply Z.leb_le in Hlow. apply Z.leb_le in Hhigh.
  assert (Hprod : 0 <= dpi * logical <= 2 ^ 16 * 240) by nia.
  rewrite to_int_small by lia. lia.
Qed.

Lemma physical_size_bands (w : world) :
  dpi_in_range w ->
  let dpi := get_dpi_value w in
  let band (logical physical : Z) :=
    dpi * logical <= 96 * physical /\ 96 * (physical - 1) <= dpi * logical in
  band 190 (button_diameter_physical w)
  /\ band 240 (clock_width_physical w)
  /\ band 84 (clock_height_physical w)
  /\ band 24 (margin_physical w).
Proof.
  intros Hdpi. cbv zeta beta. unfold dpi_in_range in Hdpi.
  pose proof (forall_from_spec _ _ _ sizes_checked (get_dpi_value w)) as Hcheck.
  rewrite Z2Nat.id in Hcheck by lia.
  specialize (Hcheck ltac:(lia)).
  unfold sizes_in_band in Hcheck. cbv zeta in Hcheck.
  repeat rewrite andb_true_iff in Hcheck.
  destruct Hcheck as [[[Hd Hw] Hh] Hm].
  unfold button_diameter_physical, clock_width_physical,
    clock_height_physical, margin_physical, ceil, scaling_factor.
  unfold BUTTON_DIAMETER, BUTTON_SPACE, BUTTON_RADIUS, CLOCK_WIDTH,
    CLOCK_HEIGHT, CLOCK_MARGIN in *.
  split; [|split; [|split]].
  - exact (size_in_band_spec _ 190 _ Hdpi ltac:(lia) Hd).
  - exact (size_in_band_spec _ 240 _ Hdpi ltac:(lia) Hw).
  - exact (size_in_band_spec _ 84 _ Hdpi ltac:(lia) Hh).
  - exact (size_in_band_spec _ 24 _ Hdpi ltac:(lia) Hm).
Qed.

Lemma physical_sizes (w : world) :
  dpi_in_range w ->
  0 <= button_diameter_physical w <= 2 ^ 24
  /\ 0 <= clock_width_physical w <= 2 ^ 24
  /\ 0 <= clock_height_physical w <= 2 ^ 24
  /\ 0 <= margin_physical w <= 2 ^ 24.
Proof.
  intros Hdpi.
  pose proof (physical_size_bands w Hdpi) as Hbands. cbv zeta beta in Hbands.
  unfold dpi_in_range in Hdpi. lia.
Qed.

Lemma int_div_2 (a : Z) :
  0 <= a < 2 ^ 31 -> int_div a 2 = a / 2.
Proof.
  intros Ha. unfold int_div.
  rewrite Z.quot_div_nonneg by lia.
  apply to_int_small.
  assert (0 <= a / 2 <= a) by (split; [apply Z.div_pos | apply Z.div_le_upper_bound]; lia).
  lia.
Qed.

Lemma to_int_mod (z : Z) : to_int (z mod 2 ^ 32) = to_int z.
Proof.
  unfold to_int. rewrite Z.add_mod_idemp_l by lia. reflexivity.
Qed.

Lemma uint_sub_mod (a b : Z) : uint_sub a b = (a - b) mod 2 ^ 32.
Proof.
  unfold uint_sub, to_uint32. symmetry. apply Zminus_mod.
Qed.

Lemma to_int_uint_sub2 (a b c : Z) :
  - 2 ^ 31 <= a - b - c < 2 ^ 31 ->
  to_int (uint_sub (uint_sub a b) c) = a - b - c.
Proof.
  intros Hr.
  rewrite (uint_sub_mod (uint_sub a b) c), (uint_sub_mod a b).
  rewrite Zminus_mod_idemp_l, to_int_mod.
  apply to_int_small, Hr.
Qed.

Ltac div_lia := Z.to_euclidean_division_equations; lia.

Ltac drop_to_int :=
  repeat match goal with
         | |- context [to_int ?z] => rewrite (to_int_small z) by div_lia
         end.

Lemma indicator_centered (w : world) (origin extent : Z) :
  dpi_in_range w ->
  - 2 ^ 15 <= origin < 2 ^ 15 -> 0 <= extent < 2 ^ 30 ->
  Z.abs (twice_center_offset
           (int_add origin
              (int_sub (int_div extent 2)
                       (int_div (button_diameter_physical w) 2)))
           (button_diameter_physical w) origin extent) <= 1.
Proof.
  intros Hdpi Ho He.
  destruct (physical_sizes w Hdpi) as (Hd & _).
  rewrite !int_div_2 by lia.
  unfold int_add, int_sub, twice_center_offset.
  drop_to_int. div_lia.
Qed.

Lemma clock_inset (w : world) (origin extent size : Z) :
  dpi_in_range w ->
  - 2 ^ 15 <= origin < 2 ^ 15 -> 0 <= extent < 2 ^ 30 ->
  0 <= size <= 2 ^ 24 ->
  int_sub (int_sub (int_add origin extent) size) (margin_physical w) + size
  = origin + extent - margin_physical w.
Proof.
  intros Hdpi Ho He Hs.
  destruct (physical_sizes w Hdpi) as (_ & _ & _ & Hm).
  unfold int_add, int_sub.
  drop_to_int. lia.
Qed.

Lemma fallback_positions (g : globals) (w : world) :
  dpi_in_range w ->
  rect_in_range (fallback_rect g) ->
  fallback_indicator_position g w = indicator_position w (fallback_rect g)
  /\ fallback_clock_position g w = clock_position w (fallback_rect g).
Proof.
  intros Hdpi (_ & _ & Hw & Hh). simpl in Hw, Hh.
  destruct (physical_sizes w Hdpi) as (Hd & Hcw & Hch & Hm).
  assert (Hhalf : forall a, 0 <= a < 2 ^ 30 -> uint_div a 2 = a / 2).
  { intros a Ha. unfold uint_div, to_uint32.
    rewrite (Z.mod_small a) by lia. reflexivity. }
  unfold fallback_indicator_position, fallback_clock_position,
    indicator_position, clock_position, fallback_rect; simpl.
  rewrite !Hhalf by lia.
  rewrite !int_div_2 by lia.
  rewrite !to_int_uint_sub by div_lia.
  rewrite !to_int_uint_sub2 by div_lia.
  unfold int_add, int_sub.
  drop_to_int.
  split; f_equal; div_lia.
Qed.

(** C7. For a scale factor and monitors in range, the calls of a frame
    end with the compositing: with a non-empty list of monitors, for every
    monitor in turn, the indicator buffer is made the source at a position
    that puts its centre within half a pixel of the monitor's centre on
    both axes and a rectangle of the buffer's extent is filled there, then
    the same is done with the clock buffer at the position that puts its
    bottom-right corner margin_physical left of and above the monitor's
    bottom-right corner; with an empty list the same is done once, for the
    rectangle at the origin whose extent is last_resolution. *)
Theorem monitor_placement (g : globals) (w : world) :
  dpi_in_range w ->
  Forall rect_in_range (xr_resolutions g) ->
  rect_in_range (fallback_rect g) ->
  let d := button_diameter_physical w in
  let cw := clock_width_physical w in
  let ch := clock_height_physical w in
  let placed (r : Rect) (indicator clock : Z * Z) : Prop :=
    Z.abs (twice_center_offset (fst indicator) d (rect_x r) (rect_width r)) <= 1
    /\ Z.abs (twice_center_offset (snd indicator) d
                                  (rect_y r) (rect_height r)) <= 1
    /\ fst clock + cw = rect_x r + rect_width r - margin_physical w
    /\ snd clock + ch = rect_y r + rect_height r - margin_physical w in
  let blits (indicator clock : Z * Z) : list cairo_op :=
    [cairo_set_source_surface output (fst indicator) (snd indicator);
     cairo_rectangle (inject_Z (fst indicator)) (inject_Z (snd indicator))
                     (inject_Z d) (inject_Z d);
     cairo_fill;
     cairo_set_source_surface clock_output (fst clock) (snd clock);
     cairo_rectangle (inject_Z (fst clock)) (inject_Z (snd clock))
                     (inject_Z cw) (inject_Z ch);
     cairo_fill] in
  (forall (P : Platform) (rs : rand_state P) (pixmap : Z)
          (resolution : Z * Z),
      exists before,
        fst (draw_image P g w rs pixmap resolution)
        = before ++ on xcb_ctx (composite g w))
  /\ (xr_resolutions g <> [] ->
      composite g w =
      flat_map (fun r => blits (indicator_position w r) (clock_position w r))
               (xr_resolutions g)
      /\ forall r, In r (xr_resolutions g) ->
                   placed r (indicator_position w r) (clock_position w r))
  /\ (xr_resolutions g = [] ->
      composite g w =
      blits (fallback_indicator_position g w) (fallback_clock_position g w)
      /\ placed (fallback_rect g) (fallback_indicator_position g w)
                (fallback_clock_position g w)).
Proof.
  intros Hdpi Hrects Hfallback d cw ch placed blits.
  destruct (physical_sizes w Hdpi) as (Hd & Hcw & Hch & Hm).
  assert (Hplaced : forall r, rect_in_range r ->
            placed r (indicator_position w r) (clock_position w r)).
  { intros r (Hx & Hy & Hw & Hh). unfold placed; simpl.
    repeat split;
      try (apply indicator_centered; assumption);
      apply clock_inset; assumption. }
  split; [|split].
  - intros P rs pixmap resolution. unfold draw_image.
    destruct (draw_indicator P g w rs) as [indicator rs'].
    match goal with
    | |- exists before, fst (?a ++ ?b ++ ?c ++ ?e ++ _, _) = _ =>
        exists (a ++ b ++ c ++ e)
    end.
    cbn [fst]. rewrite <- !app_assoc. reflexivity.
  - intros Hne. split.
    + unfold composite, xr_screens.
      destruct (xr_resolutions g) as [|r rest]; [congruence|].
      reflexivity.
    + intros r Hin. apply Hplaced.
      rewrite Forall_forall in Hrects. apply Hrects, Hin.
  - intros Hnil. split.
    + unfold composite, xr_screens. rewrite Hnil. reflexivity.
    + destruct (fallback_positions g w Hdpi Hfallback) as [Hi Hc].
      rewrite Hi, Hc. apply Hplaced, Hfallback.
Qed.

Lemma monitor_placement_witness :
  let w := sample_world 9 5 in
  let r := mkRect 1921 0 1280 1024 in
  let g := sample_globals STATE_KEY_PRESSED STATE_AUTH_IDLE false 0
                          [mkRect 0 0 1921 1080; r] in
  fst (clock_position w r) + clock_width_physical w
  = rect_x r + rect_width r - margin_physical w
  /\ composite g w
     = [cairo_set_source_surface output 865 445;
        cairo_rectangle 865 445 190 190;
        cairo_fill;
        cairo_set_source_surface clock_output 1657 972;
        cairo_rectangle 1657 972 240 84;
        cairo_fill;
        cairo_set_source_surface output 2466 417;
        cairo_rectangle 2466 417 190 190;
        cairo_fill;
        cairo_set_source_surface clock_output 2937 916;
        cairo_rectangle 2937 916 240 84;
        cairo_fill].
Proof.
  intros w r g.
  assert (Hdpi : dpi_in_range w) by (unfold dpi_in_range; simpl; lia).
  assert (Hrects : Forall rect_in_range (xr_resolutions g))
    by (repeat constructor; simpl; lia).
  assert (Hfallback : rect_in_range (fallback_rect g))
    by (repeat constructor; simpl; lia).
  assert (Hne : xr_resolutions g <> []) by discriminate.
  pose proof (monitor_placement g w Hdpi Hrects Hfallback) as H.
  cbv zeta in H. destruct H as (_ & H & _).
  destruct (H Hne) as [Hcomposite Hplaced].
  split.
  - exact (proj1 (proj2 (proj2 (Hplaced r (or_intror (or_introl eq_refl)))))).
  - rewrite Hcomposite. vm_compute. reflexivity.
Defined.

(** ** The cached background pixmap *)

Lemma allocations_app (l1 l2 : list x_request) :
  allocations (l1 ++ l2) = allocations l1 ++ allocations l2.
Proof. apply flat_map_app. Qed.

Lemma drawn_pixmaps_app (l1 l2 : list x_request) :
  drawn_pixmaps (l1 ++ l2) = drawn_pixmaps l1 ++ drawn_pixmaps l2.
Proof. apply flat_map_app. Qed.

Section Cache.
Variable P : Platform.

Lemma redraw_cached (w : world) (p : process P) :
  bg_pixmap (vars p) <> XCB_NONE ->
  bg_pixmap (vars (fst (redraw_screen w p))) = bg_pixmap (vars p)
  /\ allocations (snd (redraw_screen w p)) = []
  /\ drawn_pixmaps (snd (redraw_screen w p)) = [bg_pixmap (vars p)].
Proof.
  intros Hsome. unfold redraw_screen.
  destruct (bg_pixmap (vars p) =? XCB_NONE) eqn:Hnone.
  - apply Z.eqb_eq in Hnone. contradiction.
  - destruct (draw_image P (vars p) w (prng p) (bg_pixmap (vars p))
                         (last_resolution (vars p))) as [calls prng1].
    simpl. auto.
Qed.

Lemma redraw_allocates (w : world) (p : process P) :
  bg_pixmap (vars p) = XCB_NONE ->
  let id := fst (create_bg_pixmap P (server p) (last_resolution (vars p))
                                  (color (vars p))) in
  bg_pixmap (vars (fst (redraw_screen w p))) = id
  /\ allocations (snd (redraw_screen w p)) =
     [(fst (last_resolution (vars p)), snd (last_resolution (vars p)), id)]
  /\ drawn_pixmaps (snd (redraw_screen w p)) = [id].
Proof.
  intros Hnone id. subst id. unfold redraw_screen.
  rewrite Hnone. simpl.
  destruct (create_bg_pixmap P (server p) (last_resolution (vars p))
                             (color (vars p))) as [id server1].
  simpl.
  destruct (draw_image P _ w (prng p) id (last_resolution (vars p)))
    as [calls prng1].
  simpl. auto.
Qed.

Lemma elsewhere_keeps_pixmap (updates : list (globals -> globals))
  (p : process P) :
  bg_pixmap (vars (fst (run (map do_elsewhere updates) p)))
  = bg_pixmap (vars p)
  /\ snd (run (map do_elsewhere updates) p) = [].
Proof.
  revert p. induction updates as [|u rest IH]; intros p; simpl.
  - auto.
  - specialize (IH (mkProcess
                      (set_bg_pixmap (bg_pixmap (vars p)) (u (vars p)))
                      (server p) (prng p))).
    destruct (run (map do_elsewhere rest) _) as [p2 log2].
    simpl in *. exact IH.
Qed.

Lemma run_without_free (steps : list step) (p : process P) :
  bg_pixmap (vars p) <> XCB_NONE ->
  existsb is_free steps = false ->
  bg_pixmap (vars (fst (run steps p))) = bg_pixmap (vars p)
  /\ allocations (snd (run steps p)) = []
  /\ drawn_pixmaps (snd (run steps p)) =
     repeat (bg_pixmap (vars p)) (List.length (filter draws steps)).
Proof.
  revert p. induction steps as [|s rest IH]; intros p Hsome Hfree.
  - simpl. auto.
  - simpl in Hfree. apply orb_false_iff in Hfree.
    destruct Hfree as [Hs Hrest].
    assert (Hstep :
              bg_pixmap (vars (fst (perform s p))) = bg_pixmap (vars p)
              /\ allocations (snd (perform s p)) = []
              /\ drawn_pixmaps (snd (perform s p)) =
                 if draws s then [bg_pixmap (vars p)] else []).
    { destruct s as [w | w | | update]; simpl.
      - apply redraw_cached, Hsome.
      - unfold clear_indicator.
        destruct (input_position (vars p) =? 0);
          match goal with
          | |- context [redraw_screen w ?q] =>
              exact (redraw_cached w q Hsome)
          end.
      - discriminate.
      - auto. }
    destruct Hstep as (Hbg & Halloc & Hdrawn).
    simpl.
    destruct (perform s p) as [p1 log1]. simpl in Hbg, Halloc, Hdrawn.
    rewrite <- Hbg in Hsome.
    specialize (IH p1 Hsome Hrest).
    destruct (run rest p1) as [p2 log2]. simpl in IH |- *.
    destruct IH as (IHbg & IHalloc & IHdrawn).
    rewrite allocations_app, drawn_pixmaps_app, Halloc, IHalloc, Hdrawn,
      IHdrawn, IHbg, Hbg.
    repeat split.
    destruct (draws s); reflexivity.
Qed.
End Cache.

(** C8. If create_bg_pixmap never returns XCB_NONE: after
    free_bg_pixmap, and whatever the rest of the program changes in
    between, the next redraw_screen creates one pixmap, of the extent
    last_resolution has at that moment, draws into it and keeps it; and
    from a redraw_screen on, as long as free_bg_pixmap is not called, no
    pixmap is created and every redraw draws into that same pixmap. *)
Theorem bg_pixmap_cached_until_freed (P : Platform) :
  (forall s r c, fst (create_bg_pixmap P s r c) <> XCB_NONE) ->
  (forall (p : process P) (updates : list (globals -> globals)) (w : world),
      let p1 := fst (run (do_free_bg_pixmap :: map do_elsewhere updates) p) in
      let id := fst (create_bg_pixmap P (server p1) (last_resolution (vars p1))
                                      (color (vars p1))) in
      allocations (snd (redraw_screen w p1)) =
      [(fst (last_resolution (vars p1)), snd (last_resolution (vars p1)), id)]
      /\ drawn_pixmaps (snd (redraw_screen w p1)) = [id]
      /\ bg_pixmap (vars (fst (redraw_screen w p1))) = id)
  /\ (forall (p : process P) (w : world) (steps : list step),
         existsb is_free steps = false ->
         let p1 := fst (redraw_screen w p) in
         bg_pixmap (vars p1) <> XCB_NONE
         /\ bg_pixmap (vars (fst (run steps p1))) = bg_pixmap (vars p1)
         /\ allocations (snd (run steps p1)) = []
         /\ drawn_pixmaps (snd (run steps p1)) =
            repeat (bg_pixmap (vars p1)) (List.length (filter draws steps))).
Proof.
  intros Hcreate. split.
  - intros p updates w p1 id.
    assert (Hnone : bg_pixmap (vars p1) = XCB_NONE).
    { subst p1. simpl.
      pose proof (elsewhere_keeps_pixmap P updates
                    (mkProcess (set_bg_pixmap XCB_NONE (vars p))
                               (server p) (prng p))) as [Hbg _].
      destruct (run (map do_elsewhere updates) _) as [p2 log2].
      simpl in *. exact Hbg. }
    destruct (redraw_allocates P w p1 Hnone) as (Hbg & Halloc & Hdrawn).
    auto.
  - intros p w steps Hfree p1.
    assert (Hsome : bg_pixmap (vars p1) <> XCB_NONE).
    { subst p1.
      destruct (Z.eq_dec (bg_pixmap (vars p)) XCB_NONE) as [Hnone | Hnone].
      - destruct (redraw_allocates P w p Hnone) as (Hbg & _).
        rewrite Hbg. apply Hcreate.
      - destruct (redraw_cached P w p Hnone) as (Hbg & _).
        rewrite Hbg. exact Hnone. }
    split; [exact Hsome|].
    apply run_without_free; assumption.
Qed.

Lemma bg_pixmap_cached_until_freed_witness :
  let p := sample_process (sample_globals STATE_KEY_PRESSED STATE_AUTH_IDLE
                                          false 0 []) in
  let w := sample_world 9 5 in
  allocations
    (snd (redraw_screen w (fst (run [do_free_bg_pixmap] p))))
  = [(1920, 1080, 1)].
Proof.
  intros p w.
  assert (Hcreate : forall s r c,
             fst (create_bg_pixmap sample_platform s r c) <> XCB_NONE)
    by (intros s r c; unfold XCB_NONE; simpl; lia).
  exact (proj1 (proj1 (bg_pixmap_cached_until_freed sample_platform Hcreate)
                      p [] w)).
Defined.

(** ** Transparent buffers *)

Lemma mul_un8_255 (d : Z) : 0 <= d <= 255 -> mul_un8 d 255 = d.
Proof. intros Hd. unfold mul_un8. div_lia. Qed.

Lemma over_transparent (dst : pixel) :
  valid_pixel dst -> over transparent dst = dst.
Proof.
  intros (Ha & Hr & Hg & Hb). destruct dst as [a r g b]; simpl in *.
  unfold over; simpl.
  rewrite !mul_un8_255 by assumption. reflexivity.
Qed.

Lemma blit_cleared (x y w h : Z) (dst : image) (px py : Z) :
  valid_pixel (dst px py) -> blit_over cleared x y w h dst px py = dst px py.
Proof.
  intros Hvalid. unfold blit_over, cleared.
  destruct ((x <=? px) && (px <? x + w) && (y <=? py) && (py <? y + h));
    [apply over_transparent, Hvalid | reflexivity].
Qed.

(** C10. The calls of draw_image end with the compositing calls, which
    depend on the monitor geometry and the scale factor only: whatever
    unlock_indicator, clock_visible and the two states are, for every
    monitor (or once for the fallback rectangle) the indicator buffer is
    made the source and a rectangle of its extent is filled, then the same
    with the clock buffer.  When the indicator is not shown, no call is
    made on the indicator context, and when the clock is disabled none on
    the clock context: the buffer stays cleared, and blitting it with the
    OVER operator leaves every destination pixel as it was. *)
Theorem flags_gate_buffer_content_only
  (P : Platform) (rasterize : cairo_op -> image -> image)
  (g : globals) (w : world) (rs : rand_state P)
  (pixmap : Z) (resolution : Z * Z) :
  (exists before,
      fst (draw_image P g w rs pixmap resolution)
      = before ++ on xcb_ctx (composite g w))
  /\ (forall g', xr_resolutions g' = xr_resolutions g ->
                 last_resolution g' = last_resolution g ->
                 composite g' w = composite g w)
  /\ (let blits (indicator clock : Z * Z) : list cairo_op :=
        [cairo_set_source_surface output (fst indicator) (snd indicator);
         cairo_rectangle (inject_Z (fst indicator)) (inject_Z (snd indicator))
                         (inject_Z (button_diameter_physical w))
                         (inject_Z (button_diameter_physical w));
         cairo_fill;
         cairo_set_source_surface clock_output (fst clock) (snd clock);
         cairo_rectangle (inject_Z (fst clock)) (inject_Z (snd clock))
                         (inject_Z (clock_width_physical w))
                         (inject_Z (clock_height_physical w));
         cairo_fill] in
      composite g w =
      match xr_resolutions g with
      | [] =>
          blits (fallback_indicator_position g w)
                (fallback_clock_position g w)
      | _ :: _ =>
          flat_map
            (fun r => blits (indicator_position w r) (clock_position w r))
            (xr_resolutions g)
      end)
  /\ (indicator_shown P g = false ->
      fst (draw_indicator P g w rs) = []
      /\ forall x y dst px py,
          valid_pixel (dst px py) ->
          blit_over (buffer_of rasterize (fst (draw_indicator P g w rs)))
                    x y (button_diameter_physical w)
                    (button_diameter_physical w) dst px py
          = dst px py)
  /\ (clock_visible g = false ->
      draw_clock P g w = []
      /\ forall x y dst px py,
          valid_pixel (dst px py) ->
          blit_over (buffer_of rasterize (draw_clock P g w))
                    x y (clock_width_physical w) (clock_height_physical w)
                    dst px py
          = dst px py).
Proof.
  split; [|split; [|split; [|split]]].
  - unfold draw_image.
    destruct (draw_indicator P g w rs) as [indicator rs'].
    match goal with
    | |- exists before, fst (?a ++ ?b ++ ?c ++ ?d ++ _, _) = _ =>
        exists (a ++ b ++ c ++ d)
    end.
    cbn [fst]. rewrite <- !app_assoc. reflexivity.
  - intros g' Hrects Hres. unfold composite, composite_fallback,
      fallback_indicator_position, fallback_clock_position, xr_screens.
    rewrite Hrects, Hres. reflexivity.
  - unfold composite, xr_screens.
    destruct (xr_resolutions g) as [|r0 rest]; reflexivity.
  - intros Hhidden.
    assert (Hnone : fst (draw_indicator P g w rs) = [])
      by (unfold draw_indicator; rewrite Hhidden; reflexivity).
    split; [exact Hnone|].
    intros x y dst px py Hvalid. rewrite Hnone.
    apply blit_cleared, Hvalid.
  - intros Hoff.
    assert (Hnone : draw_clock P g w = [])
      by (unfold draw_clock; rewrite Hoff; reflexivity).
    split; [exact Hnone|].
    intros x y dst px py Hvalid. rewrite Hnone.
    apply blit_cleared, Hvalid.
Qed.

Lemma flags_gate_buffer_content_only_witness :
  let g := sample_globals STATE_STARTED STATE_AUTH_IDLE false 0
                          [mkRect 0 0 1920 1080] in
  let w := sample_world 9 5 in
  fst (draw_indicator sample_platform g w 42) = []
  /\ composite g w =
     [cairo_set_source_surface output 865 445;
      cairo_rectangle 865 445 190 190;
      cairo_fill;
      cairo_set_source_surface clock_output 1656 972;
      cairo_rectangle 1656 972 240 84;
      cairo_fill].
Proof.
  intros g w.
  pose proof (flags_gate_buffer_content_only sample_platform (fun _ i => i)
                g w 42 1 (1920, 1080)) as (_ & _ & Hblits & Hhidden & _).
  cbv zeta in Hblits.
  split.
  - exact (proj1 (Hhidden eq_refl)).
  - rewrite Hblits. vm_compute. reflexivity.
Defined.

(** ** Determinism *)

(** C4 (as the spec words it, refuted).  Two calls of draw_image that
    agree on AuthState, InputState, the counter, the PRNG state, the
    monitor geometry and the scale factor, and on every other variable as
    well, but are made at 09:05 and at 09:06, produce different frames: the
    clock shows the time read inside draw_image. *)
Lemma same_listed_inputs_different_frames :
  let g := sample_globals STATE_KEY_PRESSED STATE_AUTH_IDLE false 0 [] in
  listed_inputs_agree g (sample_world 9 5) g (sample_world 9 6)
  /\ draw_image sample_platform g (sample_world 9 5) 42 1 (1920, 1080)
     <> draw_image sample_platform g (sample_world 9 6) 42 1 (1920, 1080).
Proof.
  intros g. split.
  - unfold listed_inputs_agree. repeat split.
  - intros Heq.
    apply (f_equal (fun frame => shown_texts (fst frame))) in Heq.
    vm_compute in Heq. discriminate.
Qed.

(** C4 (amended).  draw_image is a function of its inputs: two calls
    with the same AuthState, InputState, counter, PRNG state, monitor
    geometry, scale factor, target pixmap and resolution, the same
    configuration (flags, colour, image, tiling, modifier string) and the
    same hour, minute, week day, month and day of the month of the wall
    clock issue the same calls and leave the PRNG in the same state; no
    other variable is read. *)
Theorem draw_image_deterministic
  (P : Platform) (g1 g2 : globals) (w1 w2 : world) (rs : rand_state P)
  (pixmap : Z) (resolution : Z * Z) :
  listed_inputs_agree g1 w1 g2 w2 ->
  configuration_agrees g1 g2 ->
  clock_reading_agrees w1 w2 ->
  draw_image P g1 w1 rs pixmap resolution
  = draw_image P g2 w2 rs pixmap resolution.
Proof.
  destruct g1, g2, w1 as [dpi1 []], w2 as [dpi2 []].
  unfold listed_inputs_agree, configuration_agrees, clock_reading_agrees.
  simpl.
  intros (? & ? & ? & ? & ? & ?) (? & ? & ? & ? & ? & ? & ?)
         (? & ? & ? & ? & ?).
  subst. reflexivity.
Qed.

Lemma draw_image_deterministic_witness :
  draw_image sample_platform
    (sample_globals STATE_KEY_ACTIVE STATE_AUTH_IDLE true 3 [])
    (mkWorld 96 (mkTm 0 5 9 30 9 126 5 302 0)) 42 1 (1920, 1080)
  = draw_image sample_platform
      (set_bg_pixmap 7 (sample_globals STATE_KEY_ACTIVE STATE_AUTH_IDLE true 3 []))
      (mkWorld 96 (mkTm 59 5 9 30 9 126 5 302 0)) 42 1 (1920, 1080).
Proof.
  apply draw_image_deterministic.
  - unfold listed_inputs_agree. simpl. auto 10.
  - unfold configuration_agrees. simpl. auto 10.
  - unfold clock_reading_agrees. simpl. auto 10.
Defined.

(** * Further properties of the code *)

(** ** The calls of a frame, by context *)

Lemma calls_on_app (c : cairo_ctx) (l1 l2 : list call) :
  calls_on c (l1 ++ l2) = calls_on c l1 ++ calls_on c l2.
Proof. unfold calls_on. rewrite filter_app, map_app. reflexivity. Qed.

Lemma calls_on_same (c : cairo_ctx) (ops : list cairo_op) :
  calls_on c (on c ops) = ops.
Proof.
  unfold calls_on, on. induction ops as [|op rest IH]; simpl.
  - reflexivity.
  - destruct c; simpl; f_equal; exact IH.
Qed.

Lemma calls_on_other (c c' : cairo_ctx) (ops : list cairo_op) :
  cairo_ctx_eqb c' c = false -> calls_on c (on c' ops) = [].
Proof.
  intros Hne. unfold calls_on, on. induction ops as [|op rest IH]; simpl.
  - reflexivity.
  - rewrite Hne. exact IH.
Qed.

Lemma indicator_calls_of_frame
  (P : Platform) (g : globals) (w : world) (rs : rand_state P)
  (pixmap : Z) (resolution : Z * Z) :
  calls_on ctx (fst (draw_image P g w rs pixmap resolution))
  = cairo_image_surface_create output (button_diameter_physical w)
                               (button_diameter_physical w)
    :: fst (draw_indicator P g w rs).
Proof.
  unfold draw_image.
  destruct (draw_indicator P g w rs) as [indicator rs']. cbn [fst].
  rewrite !calls_on_app.
  rewrite calls_on_same.
  rewrite !(calls_on_other ctx) by reflexivity.
  rewrite app_nil_r. reflexivity.
Qed.

Lemma draw_ring_no_sub_path (P : Platform) (g : globals) (w : world) :
  existsb is_new_sub_path (draw_ring P g w) = false.
Proof.
  unfold draw_ring. rewrite select_text_cases.
  unfold ring_color, text_color, switch, draw_text, draw_modifier,
    ring_color_arms, text_color_arms.
  destruct (auth_state g), (unlock_state g), (counter_applies g),
    (modifier_string g); reflexivity.
Qed.

Lemma draw_highlight_sub_path (s : unlock_state_t) (a : angle) :
  existsb is_new_sub_path (draw_highlight s a) = true.
Proof. reflexivity. Qed.

(** ** rand() and the highlight *)

Lemma has_highlight_frame
  (P : Platform) (g : globals) (w : world) (rs : rand_state P)
  (pixmap : Z) (resolution : Z * Z) :
  has_highlight (fst (draw_image P g w rs pixmap resolution))
  = indicator_shown P g && highlight_active (unlock_state g).
Proof.
  unfold has_highlight. rewrite indicator_calls_of_frame.
  cbn [existsb is_new_sub_path orb].
  unfold draw_indicator.
  destruct (indicator_shown P g); [|reflexivity].
  destruct (highlight_active (unlock_state g)).
  - destruct (rand P rs) as [r rs']. cbn [fst].
    rewrite existsb_app, draw_highlight_sub_path. apply orb_true_r.
  - apply draw_ring_no_sub_path.
Qed.

Lemma prng_after_frame
  (P : Platform) (g : globals) (w : world) (rs : rand_state P)
  (pixmap : Z) (resolution : Z * Z) :
  snd (draw_image P g w rs pixmap resolution)
  = if indicator_shown P g && highlight_active (unlock_state g)
    then snd (rand P rs) else rs.
Proof.
  unfold draw_image, draw_indicator.
  destruct (indicator_shown P g); [|reflexivity].
  destruct (highlight_active (unlock_state g)); [|reflexivity].
  destruct (rand P rs) as [r rs']. reflexivity.
Qed.

(** X1. A frame contains a highlight exactly when the indicator is
    shown and unlock_state is STATE_KEY_ACTIVE or STATE_BACKSPACE_ACTIVE;
    draw_image calls rand() once for such a frame and not at all for any
    other, so only highlighted frames advance the generator. *)
Theorem rand_called_once_per_highlight
  (P : Platform) (g : globals) (w : world) (rs : rand_state P)
  (pixmap : Z) (resolution : Z * Z) :
  has_highlight (fst (draw_image P g w rs pixmap resolution))
  = indicator_shown P g && highlight_active (unlock_state g)
  /\ snd (draw_image P g w rs pixmap resolution)
     = if has_highlight (fst (draw_image P g w rs pixmap resolution))
       then snd (rand P rs) else rs.
Proof.
  split; [apply has_highlight_frame|].
  rewrite has_highlight_frame. apply prng_after_frame.
Qed.

(** ** redraw_screen and clear_indicator, frame by frame *)

(* The variables draw_image sees inside redraw_screen. *)
Lemma redraw_screen_frame (P : Platform) (w : world) (p : process P) :
  let g1 :=
    if bg_pixmap (vars p) =? XCB_NONE
    then set_bg_pixmap
           (fst (create_bg_pixmap P (server p) (last_resolution (vars p))
                                  (color (vars p)))) (vars p)
    else vars p in
  let frame := draw_image P g1 w (prng p) (bg_pixmap g1) (last_resolution g1) in
  vars (fst (redraw_screen w p)) = g1
  /\ prng (fst (redraw_screen w p)) = snd frame
  /\ frames (snd (redraw_screen w p)) = [fst frame].
Proof.
  unfold redraw_screen.
  destruct (bg_pixmap (vars p) =? XCB_NONE).
  - destruct (create_bg_pixmap P (server p) (last_resolution (vars p))
                               (color (vars p))) as [id server1].
    cbn [fst bg_pixmap last_resolution set_bg_pixmap].
    destruct (draw_image P (set_bg_pixmap id (vars p)) w (prng p) id
                         (last_resolution (vars p))) as [calls prng1].
    simpl. auto.
  - destruct (draw_image P (vars p) w (prng p) (bg_pixmap (vars p))
                         (last_resolution (vars p))) as [calls prng1].
    simpl. auto.
Qed.

(** X2. clear_indicator sets unlock_state to STATE_STARTED when the
    input buffer is empty and to STATE_KEY_PRESSED otherwise, leaves
    auth_state alone, and draws exactly one frame; that frame never has a
    highlight and rand() is not called. *)
Theorem clear_indicator_draws_no_highlight
  (P : Platform) (w : world) (p : process P) :
  unlock_state (vars (fst (clear_indicator w p)))
  = (if input_position (vars p) =? 0
     then STATE_STARTED else STATE_KEY_PRESSED)
  /\ auth_state (vars (fst (clear_indicator w p))) = auth_state (vars p)
  /\ prng (fst (clear_indicator w p)) = prng p
  /\ exists calls,
      frames (snd (clear_indicator w p)) = [calls]
      /\ has_highlight calls = false.
Proof.
  unfold clear_indicator.
  set (g1 := if input_position (vars p) =? 0
             then set_unlock_state STATE_STARTED (vars p)
             else set_unlock_state STATE_KEY_PRESSED (vars p)).
  destruct (redraw_screen_frame P w (mkProcess g1 (server p) (prng p)))
    as (Hvars & Hprng & Hframes).
  cbn [vars server prng] in Hvars, Hprng, Hframes.
  assert (Hquiet : forall g,
             unlock_state g = unlock_state g1 ->
             highlight_active (unlock_state g) = false).
  { intros g Hg. rewrite Hg. subst g1.
    destruct (input_position (vars p) =? 0); reflexivity. }
  rewrite Hvars, Hprng, Hframes.
  split; [|split; [|split]].
  - subst g1.
    destruct (bg_pixmap _ =? XCB_NONE), (input_position (vars p) =? 0);
      reflexivity.
  - subst g1.
    destruct (bg_pixmap _ =? XCB_NONE), (input_position (vars p) =? 0);
      reflexivity.
  - rewrite prng_after_frame, Hquiet, andb_false_r; [reflexivity|].
    destruct (bg_pixmap g1 =? XCB_NONE); reflexivity.
  - eexists. split; [reflexivity|].
    rewrite has_highlight_frame, Hquiet, andb_false_r; [reflexivity|].
    destruct (bg_pixmap g1 =? XCB_NONE); reflexivity.
Qed.

Lemma draw_ring_not_nil (P : Platform) (g : globals) (w : world) :
  draw_ring P g w <> [].
Proof.
  unfold draw_ring. destruct (select_text g). discriminate.
Qed.

(** X3. With the enumerators in header order and the indicator enabled,
    the frame clear_indicator draws leaves the indicator buffer untouched
    exactly when the input buffer is empty and auth_state is
    STATE_AUTH_IDLE; in every other case (text in the buffer, or an
    authentication state being reported) the ring is drawn, without
    highlight. *)
Theorem clear_indicator_hides_only_when_idle
  (P : Platform) (w : world) (p : process P) :
  header_order P ->
  unlock_indicator (vars p) = true ->
  exists calls,
    frames (snd (clear_indicator w p)) = [calls]
    /\ (calls_on ctx calls
        = [cairo_image_surface_create output (button_diameter_physical w)
                                      (button_diameter_physical w)]
        <-> input_position (vars p) = 0
            /\ auth_state (vars p) = STATE_AUTH_IDLE)
    /\ (input_position (vars p) <> 0
        \/ auth_state (vars p) <> STATE_AUTH_IDLE ->
        calls_on ctx calls
        = cairo_image_surface_create output (button_diameter_physical w)
                                     (button_diameter_physical w)
          :: draw_ring P (vars (fst (clear_indicator w p))) w).
Proof.
  intros Horder Hon.
  unfold clear_indicator.
  set (g1 := if input_position (vars p) =? 0
             then set_unlock_state STATE_STARTED (vars p)
             else set_unlock_state STATE_KEY_PRESSED (vars p)).
  destruct (redraw_screen_frame P w (mkProcess g1 (server p) (prng p)))
    as (Hvars & _ & Hframes).
  cbn [vars server prng] in Hvars, Hframes.
  rewrite Hvars, Hframes.
  eexists. split; [reflexivity|].
  rewrite indicator_calls_of_frame.
  set (g2 := if bg_pixmap g1 =? XCB_NONE then _ else g1).
  assert (Hg2 : unlock_indicator g2 = true
                /\ auth_state g2 = auth_state (vars p)
                /\ unlock_state g2
                   = if input_position (vars p) =? 0
                     then STATE_STARTED else STATE_KEY_PRESSED).
  { subst g2 g1.
    destruct (bg_pixmap _ =? XCB_NONE), (input_position (vars p) =? 0);
      simpl; auto. }
  destruct Hg2 as (Hon2 & Hauth2 & Hunlock2).
  pose proof (indicator_shown_iff P g2 Horder Hon2) as Hshown.
  rewrite Hauth2, Hunlock2 in Hshown.
  assert (Hind : fst (draw_indicator P g2 w (prng p))
                 = if indicator_shown P g2 then draw_ring P g2 w else []).
  { unfold draw_indicator. rewrite Hunlock2.
    destruct (indicator_shown P g2); [|reflexivity].
    destruct (input_position (vars p) =? 0); reflexivity. }
  rewrite Hind.
  destruct (Z.eqb_spec (input_position (vars p)) 0) as [Hempty | Hfull].
  - destruct (indicator_shown P g2) eqn:Hs.
    + assert (Hnot : auth_state (vars p) <> STATE_AUTH_IDLE).
      { destruct (proj1 Hshown eq_refl) as [H | H]; congruence. }
      split.
      * split.
        -- intros Heq. inversion Heq as [Hnil].
           exfalso. exact (draw_ring_not_nil P g2 w Hnil).
        -- intros [_ Hidle]. contradiction.
      * reflexivity.
    + split.
      * split; [|reflexivity].
        intros _. split; [exact Hempty|].
        destruct (auth_state (vars p)) eqn:Ha; try reflexivity;
          exfalso;
          (assert (false = true) by (apply Hshown; right; discriminate));
          discriminate.
      * intros [H | H]; [contradiction|].
        assert (false = true) by (apply Hshown; right; exact H).
        discriminate.
  - assert (Hs : indicator_shown P g2 = true)
      by (apply Hshown; left; discriminate).
    rewrite Hs. split.
    + split.
      * intros Heq. inversion Heq as [Hnil].
        exfalso. exact (draw_ring_not_nil P g2 w Hnil).
      * intros [H _]. contradiction.
    + reflexivity.
Qed.

Lemma clear_indicator_hides_only_when_idle_witness :
  header_order sample_platform
  /\ exists calls,
      frames (snd (clear_indicator
                     (sample_world 9 5)
                     (sample_process
                        (sample_globals STATE_KEY_ACTIVE STATE_AUTH_WRONG
                                        false 0 []))))
      = [calls].
Proof.
  split; [exact sample_platform_order|].
  destruct (clear_indicator_hides_only_when_idle
              sample_platform (sample_world 9 5)
              (sample_process
                 (sample_globals STATE_KEY_ACTIVE STATE_AUTH_WRONG false 0 []))
              sample_platform_order eq_refl) as (calls & Hframes & _).
  exists calls. exact Hframes.
Defined.

(** X4. With a background pixmap in place and no highlight to draw,
    redraw_screen leaves bg_pixmap, the other variables, the X server
    handle and the generator as they were, so redrawing again at the same
    time and scale sends the same requests once more: a redraw is
    repeatable whenever rand() is not involved. *)
Theorem redraw_without_highlight_repeats
  (P : Platform) (w : world) (p : process P) :
  bg_pixmap (vars p) <> XCB_NONE ->
  indicator_shown P (vars p) && highlight_active (unlock_state (vars p))
  = false ->
  fst (redraw_screen w p) = p
  /\ redraw_screen w (fst (redraw_screen w p)) = redraw_screen w p.
Proof.
  intros Hsome Hquiet.
  assert (Hsame : fst (redraw_screen w p) = p).
  { unfold redraw_screen.
    apply Z.eqb_neq in Hsome. rewrite Hsome.
    pose proof (prng_after_frame P (vars p) w (prng p) (bg_pixmap (vars p))
                  (last_resolution (vars p))) as Hprng.
    rewrite Hquiet in Hprng.
    destruct (draw_image P (vars p) w (prng p) (bg_pixmap (vars p))
                         (last_resolution (vars p))) as [calls prng1].
    simpl in Hprng |- *. subst prng1. destruct p; reflexivity. }
  split; [exact Hsame|]. rewrite Hsame. reflexivity.
Qed.

Lemma redraw_without_highlight_repeats_witness :
  let p := @mkProcess sample_platform
             (set_bg_pixmap 5 (sample_globals STATE_KEY_PRESSED
                                              STATE_AUTH_VERIFY false 0 []))
             6 42 in
  fst (redraw_screen (sample_world 9 5) p) = p.
Proof.
  intros p.
  apply (redraw_without_highlight_repeats sample_platform (sample_world 9 5) p).
  - unfold XCB_NONE. simpl. lia.
  - reflexivity.
Defined.

(** ** The request log *)

Lemma replay_app (live : Z) (l1 l2 : list x_request) :
  replay live (l1 ++ l2)
  = match replay live l1 with
    | Some live' => replay live' l2
    | None => None
    end.
Proof.
  revert live. induction l1 as [|r rest IH]; intros live; simpl.
  - reflexivity.
  - destruct r; try apply IH;
      match goal with
      | |- context [if ?c then _ else _] => destruct c
      end; try apply IH; reflexivity.
Qed.

Lemma replay_redraw (P : Platform) (w : world) (p : process P) :
  (forall s r c, fst (create_bg_pixmap P s r c) <> XCB_NONE) ->
  replay (bg_pixmap (vars p)) (snd (redraw_screen w p))
  = Some (bg_pixmap (vars (fst (redraw_screen w p)))).
Proof.
  intros Hcreate. unfold redraw_screen.
  destruct (bg_pixmap (vars p) =? XCB_NONE) eqn:Hnone.
  - pose proof (Hcreate (server p) (last_resolution (vars p))
                        (color (vars p))) as Hid.
    destruct (create_bg_pixmap P (server p) (last_resolution (vars p))
                               (color (vars p))) as [id server1].
    cbn [fst bg_pixmap last_resolution set_bg_pixmap win] in Hid |- *.
    destruct (draw_image P (set_bg_pixmap id (vars p)) w (prng p) id
                         (last_resolution (vars p))) as [calls prng1].
    apply Z.eqb_neq in Hid.
    simpl. rewrite Hnone, Hid, Z.eqb_refl. reflexivity.
  - destruct (draw_image P (vars p) w (prng p) (bg_pixmap (vars p))
                         (last_resolution (vars p))) as [calls prng1].
    simpl. rewrite Z.eqb_refl, Hnone. reflexivity.
Qed.

Lemma replay_perform (P : Platform) (s : step) (p : process P) :
  (forall s r c, fst (create_bg_pixmap P s r c) <> XCB_NONE) ->
  replay (bg_pixmap (vars p)) (snd (perform s p))
  = Some (bg_pixmap (vars (fst (perform s p)))).
Proof.
  intros Hcreate. destruct s as [w | w | | update]; simpl.
  - apply replay_redraw, Hcreate.
  - unfold clear_indicator.
    destruct (input_position (vars p) =? 0);
      match goal with
      | |- context [redraw_screen w ?q] => exact (replay_redraw P w q Hcreate)
      end.
  - rewrite Z.eqb_refl. reflexivity.
  - reflexivity.
Qed.

(** X5. If create_bg_pixmap never returns XCB_NONE, every sequence of
    redraw_screen, clear_indicator, free_bg_pixmap and changes made
    elsewhere keeps the pixmap discipline: a pixmap is created only while
    none is held, draw_image and the window background only ever get the
    pixmap currently held (never a freed one, never XCB_NONE), a free
    names the pixmap held (XCB_NONE when none is), and bg_pixmap is the
    pixmap the log leaves live. *)
Theorem request_log_keeps_pixmap_discipline
  (P : Platform) (steps : list step) (p : process P) :
  (forall s r c, fst (create_bg_pixmap P s r c) <> XCB_NONE) ->
  replay (bg_pixmap (vars p)) (snd (run steps p))
  = Some (bg_pixmap (vars (fst (run steps p)))).
Proof.
  intros Hcreate. revert p.
  induction steps as [|s rest IH]; intros p; simpl.
  - reflexivity.
  - pose proof (replay_perform P s p Hcreate) as Hstep.
    destruct (perform s p) as [p1 log1]. simpl in Hstep.
    specialize (IH p1).
    destruct (run rest p1) as [p2 log2]. simpl in IH |- *.
    rewrite replay_app, Hstep. exact IH.
Qed.

Lemma request_log_keeps_pixmap_discipline_witness :
  let w := sample_world 9 5 in
  replay XCB_NONE
    (snd (run [do_redraw_screen w; do_free_bg_pixmap; do_free_bg_pixmap;
               do_clear_indicator w; do_redraw_screen w]
              (sample_process
                 (sample_globals STATE_KEY_ACTIVE STATE_AUTH_IDLE false 0 []))))
  = Some 2.
Proof.
  intros w.
  assert (Hcreate : forall s r c,
             fst (create_bg_pixmap sample_platform s r c) <> XCB_NONE)
    by (intros s r c; unfold XCB_NONE; simpl; lia).
  exact (request_log_keeps_pixmap_discipline sample_platform
           [do_redraw_screen w; do_free_bg_pixmap; do_free_bg_pixmap;
            do_clear_indicator w; do_redraw_screen w]
           (sample_process
              (sample_globals STATE_KEY_ACTIVE STATE_AUTH_IDLE false 0 []))
           Hcreate).
Defined.

(** X6. The cache is keyed on XCB_NONE alone: when last_resolution
    changes and free_bg_pixmap is not called, the next redraw_screen
    creates no pixmap and hands the pixmap it holds, whatever extent that
    was created with, to draw_image together with the new resolution. *)
Theorem resolution_change_without_free_reuses_pixmap
  (P : Platform) (w : world) (p : process P) (r : Z * Z) :
  bg_pixmap (vars p) <> XCB_NONE ->
  let log := snd (run [do_elsewhere (set_last_resolution r);
                       do_redraw_screen w] p) in
  allocations log = []
  /\ exists calls,
      log = [x_draw_image (bg_pixmap (vars p)) r calls;
             x_change_back_pixmap (win (vars p)) (bg_pixmap (vars p));
             x_clear_area (win (vars p)) (fst r) (snd r);
             x_flush]
      /\ In (xcb_ctx, cairo_xcb_surface_create (bg_pixmap (vars p))
                                               (fst r) (snd r)) calls.
Proof.
  intros Hsome log. subst log. simpl.
  unfold redraw_screen. cbn [vars server prng bg_pixmap set_bg_pixmap
                             set_last_resolution last_resolution win color].
  apply Z.eqb_neq in Hsome. rewrite Hsome.
  match goal with
  | |- context [draw_image ?a ?b ?c ?d ?e ?f] =>
      pose proof (eq_refl (fst (draw_image a b c d e f))) as Hcalls;
      unfold draw_image at 2 in Hcalls;
      destruct (draw_image a b c d e f) as [calls prng1]
  end.
  simpl. split; [reflexivity|].
  exists calls. split; [reflexivity|].
  cbn [fst] in Hcalls. rewrite Hcalls.
  destruct (draw_indicator P _ w (prng p)) as [indicator rs'].
  cbn [fst]. right. right. left. reflexivity.
Qed.

Lemma resolution_change_without_free_reuses_pixmap_witness :
  let p := @mkProcess sample_platform
             (set_bg_pixmap 5 (sample_globals STATE_KEY_PRESSED
                                              STATE_AUTH_IDLE false 0 []))
             6 42 in
  allocations
    (snd (run [do_elsewhere (set_last_resolution (2560, 1440));
               do_redraw_screen (sample_world 9 5)] p)) = [].
Proof.
  intros p.
  apply (resolution_change_without_free_reuses_pixmap
           sample_platform (sample_world 9 5) p (2560, 1440)).
  unfold XCB_NONE. simpl. lia.
Defined.

(** ** The texts of the indicator *)

(** X7. Whatever value the int failed_attempts holds, the status text
    is one of six literals or a numeral; a numeral appears only in
    STATE_AUTH_IDLE with the display enabled and 1 <= failed_attempts <=
    999, and then has at most three characters: zero, negative and
    four-digit values are never printed. *)
Theorem status_text_is_literal_or_short_numeral (g : globals) (s : string) :
  status_text g = Some s ->
  In s status_literals
  \/ (auth_state g = STATE_AUTH_IDLE
      /\ show_failed_attempts g = true
      /\ 1 <= failed_attempts g <= 999
      /\ s = format_d (failed_attempts g)
      /\ (String.length s <= 3)%nat).
Proof.
  unfold status_text. rewrite select_text_cases.
  unfold status_literals, counter_applies.
  destruct (auth_state g); simpl;
    try (intros H; injection H as <-; left; simpl; tauto).
  destruct (show_failed_attempts g); simpl.
  - destruct (0 <? failed_attempts g) eqn:Hpos.
    + destruct (999 <? failed_attempts g) eqn:Hbig.
      * intros H; injection H as <-. left. simpl. tauto.
      * intros H; injection H as <-. right.
        apply Z.ltb_lt in Hpos. apply Z.ltb_ge in Hbig.
        destruct (counter_fits_small (failed_attempts g) ltac:(lia))
          as (Hfit & Hlen & _).
        rewrite Hfit. repeat split; try lia; assumption.
    + destruct (unlock_state_eqb (unlock_state g) STATE_NOTHING_TO_DELETE);
        [|discriminate].
      intros H; injection H as <-. left. simpl. tauto.
  - destruct (unlock_state_eqb (unlock_state g) STATE_NOTHING_TO_DELETE);
      [|discriminate].
    intros H; injection H as <-. left. simpl. tauto.
Qed.

Lemma status_text_is_literal_or_short_numeral_witness :
  In "42" status_literals
  \/ (STATE_AUTH_IDLE = STATE_AUTH_IDLE /\ true = true /\ 1 <= 42 <= 999
      /\ "42" = format_d 42 /\ (String.length "42" <= 3)%nat).
Proof.
  exact (status_text_is_literal_or_short_numeral
           (sample_globals STATE_NOTHING_TO_DELETE STATE_AUTH_IDLE true 42 [])
           "42" eq_refl).
Defined.




(** X8. The indicator shows at most two texts and always in this order:
    the status text, then the modifier string; the modifier string is
    shown only in STATE_AUTH_WRONG (so only below "Wrong!"), the
    highlight adds no text, and a hidden indicator shows none. *)
Theorem indicator_shows_status_then_modifier
  (P : Platform) (g : globals) (w : world) (rs : rand_state P) :
  shown_texts (on ctx (fst (draw_indicator P g w rs)))
  = (if indicator_shown P g
     then text_list (status_text g) ++ text_list (modifier_shown g)
     else [])
  /\ (forall m, modifier_shown g = Some m -> status_text g = Some "Wrong!").
Proof.
  split.
  - unfold draw_indicator.
    destruct (indicator_shown P g); [|reflexivity].
    destruct (highlight_active (unlock_state g)).
    + destruct (rand P rs) as [r rs']. cbn [fst].
      rewrite on_app, shown_texts_app, draw_ring_texts.
      simpl. apply app_nil_r.
    + apply draw_ring_texts.
  - intros m. unfold modifier_shown, status_text.
    rewrite select_text_cases.
    destruct (auth_state g); simpl; try discriminate. reflexivity.
Qed.

Lemma indicator_shows_status_then_modifier_witness :
  shown_texts
    (on ctx (fst (draw_indicator sample_platform
                    (mkGlobals false 0 77 (1920, 1080) true true
                               (Some "Caps Lock") false false "2e3440" false
                               0 [] STATE_KEY_ACTIVE STATE_AUTH_WRONG XCB_NONE)
                    (sample_world 9 5) 42)))
  = ["Wrong!"; "Caps Lock"].
Proof.
  exact (proj1 (indicator_shows_status_then_modifier
                  sample_platform
                  (mkGlobals false 0 77 (1920, 1080) true true
                             (Some "Caps Lock") false false "2e3440" false
                             0 [] STATE_KEY_ACTIVE STATE_AUTH_WRONG XCB_NONE)
                  (sample_world 9 5) 42)).
Defined.

(** X9. In STATE_AUTH_WRONG and STATE_I3LOCK_LOCK_FAILED with
    unlock_state STATE_NOTHING_TO_DELETE, the text-colour switch sets
    nord4, nord11 and, running on into the default arm, nord12: "Wrong!"
    or "Lock failed!" is shown in accent-orange while the ring is stroked
    in accent-red. *)
Theorem wrong_text_recoloured_when_nothing_to_delete (g : globals) :
  auth_state g = STATE_AUTH_WRONG
  \/ auth_state g = STATE_I3LOCK_LOCK_FAILED ->
  unlock_state g = STATE_NOTHING_TO_DELETE ->
  text_color g = [cairo_set_source_rgb (NORD 4);
                  cairo_set_source_rgb (NORD 11);
                  cairo_set_source_rgb (NORD 12)]
  /\ status_text g = spec_auth_text (auth_state g)
  /\ status_text_color g = Some accent_orange
  /\ source_in_effect (ring_color g) = Some accent_red.
Proof.
  intros Hauth Hunlock.
  unfold status_text, status_text_color.
  rewrite select_text_cases.
  unfold text_color, ring_color, switch, text_color_arms, ring_color_arms.
  rewrite Hunlock.
  destruct Hauth as [Ha | Ha]; rewrite Ha; simpl; auto.
Qed.

Lemma wrong_text_recoloured_when_nothing_to_delete_witness :
  status_text_color
    (sample_globals STATE_NOTHING_TO_DELETE STATE_AUTH_WRONG false 0 [])
  = Some accent_orange.
Proof.
  apply (wrong_text_recoloured_when_nothing_to_delete
           (sample_globals STATE_NOTHING_TO_DELETE STATE_AUTH_WRONG false 0 [])
           (or_introl eq_refl) eq_refl).
Defined.

(** X10. Whatever the font metrics, the status text is placed so that
    the centre of its extents box is the centre of the ring on both axes;
    the modifier string is centred the same way horizontally and 28 units
    lower; the time of the clock is centred horizontally in the panel. *)
Theorem texts_are_centered
  (P : Platform) (g : globals) (w : world) (s m : string) :
  let e := cairo_text_extents P 24 s in
  let em := cairo_text_extents P 14 m in
  let et := cairo_text_extents P 48 (time_text w) in
  (exists x y,
      draw_text P (Some s)
      = [cairo_move_to x y; cairo_show_text s; cairo_close_path]
      /\ (x + x_bearing e + ext_width e / 2 == inject_Z BUTTON_CENTER)%Q
      /\ (y + y_bearing e + ext_height e / 2 == inject_Z BUTTON_CENTER)%Q)
  /\ (auth_state g = STATE_AUTH_WRONG -> modifier_string g = Some m ->
      exists x y,
        draw_modifier P g
        = [cairo_set_font_size 14; cairo_move_to x y; cairo_show_text m;
           cairo_close_path]
        /\ (x + x_bearing em + ext_width em / 2 == inject_Z BUTTON_CENTER)%Q
        /\ (y + y_bearing em + ext_height em / 2
            == inject_Z BUTTON_CENTER + 28)%Q)
  /\ (clock_visible g = true ->
      exists x y,
        In (cairo_move_to x y) (draw_clock P g w)
        /\ In (cairo_show_text (time_text w)) (draw_clock P g w)
        /\ (x + x_bearing et + ext_width et / 2
            == inject_Z CLOCK_WIDTH / 2)%Q).
Proof.
  intros e em et. split; [|split].
  - unfold draw_text, centered. fold e.
    eexists. eexists. split; [reflexivity|]. split; field.
  - intros Ha Hm. unfold draw_modifier, centered. rewrite Hm, Ha. fold em.
    simpl auth_state_eqb. cbv iota.
    eexists. eexists. split; [reflexivity|]. split; field.
  - intros Hon. unfold draw_clock. rewrite Hon. fold et.
    eexists. eexists. split; [|split].
    + do 10 right. left. reflexivity.
    + do 11 right. left. reflexivity.
    + field.
Qed.

Lemma texts_are_centered_witness :
  exists x y,
    draw_modifier sample_platform
      (mkGlobals false 0 77 (1920, 1080) true true (Some "Caps Lock") false
                 false "2e3440" false 0 [] STATE_KEY_PRESSED STATE_AUTH_WRONG
                 XCB_NONE)
    = [cairo_set_font_size 14; cairo_move_to x y;
       cairo_show_text "Caps Lock"; cairo_close_path]
    /\ (x + 0 + ((14 * (3 # 5) * inject_Z 9) / 2) == inject_Z BUTTON_CENTER)%Q.
Proof.
  destruct (proj1 (proj2 (texts_are_centered
                            sample_platform
                            (mkGlobals false 0 77 (1920, 1080) true true
                                       (Some "Caps Lock") false false "2e3440"
                                       false 0 [] STATE_KEY_PRESSED
                                       STATE_AUTH_WRONG XCB_NONE)
                            (sample_world 9 5) "Wrong!" "Caps Lock"))
                  eq_refl eq_refl) as (x & y & Hdraw & Hx & _).
  exists x, y. split; [exact Hdraw | exact Hx].
Defined.

(** ** The fill colour *)

Lemma in_bytes (b : Z) : 0 <= b <= 255 -> In b bytes.
Proof.
  intros Hb. unfold bytes.
  rewrite <- (Z2Nat.id b) by lia.
  apply in_map, in_seq. lia.
Qed.

Lemma bytes_read_back : forallb byte_reads_back bytes = true.
Proof. vm_compute. reflexivity. Qed.

Lemma hex_byte_reads_back (upper : bool) (b : Z) :
  0 <= b <= 255 -> to_uint32 (strtol16 (hex_byte upper b)) = b.
Proof.
  intros Hb.
  pose proof bytes_read_back as Hall.
  rewrite forallb_forall in Hall.
  specialize (Hall b (in_bytes b Hb)).
  unfold byte_reads_back in Hall.
  apply andb_true_iff in Hall. destruct Hall as [Hlower Hupper].
  apply Z.eqb_eq in Hlower. apply Z.eqb_eq in Hupper.
  destruct upper; assumption.
Qed.

(** X11. Reading a colour is the inverse of writing it: for components
    r, g, b in 0..255 written as six hexadecimal digits, in lower or in
    upper case, draw_image recovers exactly r, g and b. *)
Theorem rgb16_reads_hex_color (upper : bool) (r g b : Z) :
  0 <= r <= 255 -> 0 <= g <= 255 -> 0 <= b <= 255 ->
  rgb16 (hex_color upper r g b) = [r; g; b]
  /\ fill_color (hex_color upper r g b) = mkRgb (r # 255) (g # 255) (b # 255).
Proof.
  intros Hr Hg Hb.
  assert (Hrgb : rgb16 (hex_color upper r g b) = [r; g; b]).
  { unfold rgb16, strgroups, hex_color.
    change (map ?f [?x; ?y; ?z]) with [f x; f y; f z].
    pose proof (hex_byte_reads_back upper r Hr) as Hr'.
    pose proof (hex_byte_reads_back upper g Hg) as Hg'.
    pose proof (hex_byte_reads_back upper b Hb) as Hb'.
    unfold hex_byte in *. simpl append. cbn [char_at get].
    rewrite Hr', Hg', Hb'. reflexivity. }
  split; [exact Hrgb|].
  unfold fill_color. rewrite Hrgb. reflexivity.
Qed.

Lemma rgb16_reads_hex_color_witness :
  rgb16 (hex_color false 0x2e 0x34 0x40) = [0x2e; 0x34; 0x40].
Proof.
  apply (rgb16_reads_hex_color false 0x2e 0x34 0x40); lia.
Defined.

(** ** The clock texts *)

Lemma in_two_digit_values (n : Z) : 0 <= n <= 99 -> In n two_digit_values.
Proof.
  intros Hn. unfold two_digit_values.
  rewrite <- (Z2Nat.id n) by lia.
  apply in_map, in_seq. lia.
Qed.

Lemma two_digit_values_read_back :
  forallb two_digits_read_back two_digit_values = true.
Proof. vm_compute. reflexivity. Qed.

Lemma two_digits_value (n : Z) :
  0 <= n <= 99 -> decimal_value (two_digits n) = Some n.
Proof.
  intros Hn.
  pose proof two_digit_values_read_back as Hall.
  rewrite forallb_forall in Hall.
  specialize (Hall n (in_two_digit_values n Hn)).
  unfold two_digits_read_back in Hall.
  destruct (decimal_value (two_digits n)) as [v|]; [|discriminate].
  apply Z.eqb_eq in Hall. congruence.
Qed.

(** X12. For an hour in 0..23 and a minute in 0..59, the time text is
    stored whole in its 8-byte buffer: five characters, two digits that
    read back as the hour, a colon, and two digits that read back as the
    minute. *)
Theorem time_text_fits_and_reads_back (w : world) :
  0 <= tm_hour (localtime_now w) <= 23 ->
  0 <= tm_min (localtime_now w) <= 59 ->
  time_text w = format_HM (localtime_now w)
  /\ String.length (time_text w) = 5%nat
  /\ decimal_value (substring 0 2 (time_text w))
     = Some (tm_hour (localtime_now w))
  /\ substring 2 1 (time_text w) = ":"
  /\ decimal_value (substring 3 2 (time_text w))
     = Some (tm_min (localtime_now w)).
Proof.
  intros Hhour Hmin.
  assert (Htext : time_text w = format_HM (localtime_now w)) by reflexivity.
  rewrite Htext. unfold format_HM.
  assert (Hh : decimal_value (two_digits (tm_hour (localtime_now w)))
               = Some (tm_hour (localtime_now w)))
    by (apply two_digits_value; lia).
  assert (Hm : decimal_value (two_digits (tm_min (localtime_now w)))
               = Some (tm_min (localtime_now w)))
    by (apply two_digits_value; lia).
  unfold two_digits in *.
  repeat split; try reflexivity; assumption.
Qed.

Lemma time_text_fits_and_reads_back_witness :
  String.length (time_text (sample_world 23 59)) = 5%nat.
Proof.
  apply (time_text_fits_and_reads_back (sample_world 23 59)); simpl; lia.
Defined.

Lemma in_week_days (d : Z) : 0 <= d <= 6 -> In d week_days.
Proof.
  intros Hd. unfold week_days.
  rewrite <- (Z2Nat.id d) by lia.
  apply in_map, in_seq. lia.
Qed.

Lemma in_months (m : Z) : 0 <= m <= 11 -> In m months.
Proof.
  intros Hm. unfold months.
  rewrite <- (Z2Nat.id m) by lia.
  apply in_map, in_seq. lia.
Qed.

Lemma dates_fit : forallb date_fits week_days = true.
Proof. vm_compute. reflexivity. Qed.

Lemma string_length_append (s1 s2 : string) :
  String.length (s1 ++ s2)%string
  = (String.length s1 + String.length s2)%nat.
Proof.
  induction s1 as [|c rest IH]; simpl; [reflexivity | f_equal; exact IH].
Qed.

(** X13. With the week-day and month names of the "C" locale, for a week
    day in 0..6 and a month in 0..11 the date text has at most 17
    characters whatever the day of the month, so strftime stores it whole
    in the 32-byte buffer. *)
Theorem date_text_fits (w : world) :
  0 <= tm_wday (localtime_now w) <= 6 ->
  0 <= tm_mon (localtime_now w) <= 11 ->
  date_text w = format_aBd (localtime_now w)
  /\ (String.length (date_text w) <= 17)%nat.
Proof.
  intros Hwday Hmon.
  pose proof dates_fit as Hall.
  rewrite forallb_forall in Hall.
  specialize (Hall _ (in_week_days _ Hwday)).
  unfold date_fits in Hall. rewrite forallb_forall in Hall.
  specialize (Hall _ (in_months _ Hmon)).
  apply Nat.leb_le in Hall.
  assert (Hlen : String.length (format_aBd (localtime_now w))
                 = date_length (tm_wday (localtime_now w))
                               (tm_mon (localtime_now w))).
  { unfold format_aBd, date_length.
    rewrite !string_length_append. reflexivity. }
  assert (Htext : date_text w = format_aBd (localtime_now w)).
  { unfold date_text, strftime.
    destruct (String.length (format_aBd (localtime_now w)) <? 32)%nat eqn:Hfit;
      [reflexivity|].
    apply Nat.ltb_ge in Hfit. lia. }
  rewrite Htext. split; [reflexivity | lia].
Qed.

Lemma date_text_fits_witness :
  date_text (sample_world 9 5) = format_aBd (localtime_now (sample_world 9 5)).
Proof.
  apply (date_text_fits (sample_world 9 5)); simpl; lia.
Defined.

(** ** Buffers and monitors *)

(** X14. For a dpi value in range, each physical size, computed in
    binary64 as the code computes it, is at least the logical size times
    dpi / 96 and at most one pixel above it; it is the least such integer
    whenever that product is not an integer.  Where the product is an
    integer the rounded product can overshoot it: at 100 dpi the clock
    buffer is 251 wide although 240 * 100 / 96 is 250. *)
Theorem physical_sizes_within_one_pixel (w : world) :
  dpi_in_range w ->
  let dpi := get_dpi_value w in
  let within (logical physical : Z) :=
    dpi * logical <= 96 * physical
    /\ 96 * (physical - 1) <= dpi * logical
    /\ ((dpi * logical) mod 96 <> 0 -> 96 * (physical - 1) < dpi * logical) in
  within 190 (button_diameter_physical w)
  /\ within 240 (clock_width_physical w)
  /\ within 84 (clock_height_physical w)
  /\ within 24 (margin_physical w)
  /\ clock_width_physical (world_at 100) = 251.
Proof.
  intros Hdpi. cbv zeta beta.
  pose proof (physical_size_bands w Hdpi) as Hbands. cbv zeta beta in Hbands.
  destruct Hbands as ((H1 & H2) & (H3 & H4) & (H5 & H6) & (H7 & H8)).
  assert (Hstrict : forall n d,
             96 * (d - 1) <= n -> n mod 96 <> 0 -> 96 * (d - 1) < n).
  { intros n d Hle Hmod.
    destruct (Z.eq_dec (96 * (d - 1)) n) as [Heq | Hne]; [|lia].
    exfalso. apply Hmod. rewrite <- Heq, Z.mul_comm. apply Z.mod_mul. lia. }
  split; [|split; [|split; [|split]]].
  - split; [exact H1 | split; [exact H2 | apply Hstrict, H2]].
  - split; [exact H3 | split; [exact H4 | apply Hstrict, H4]].
  - split; [exact H5 | split; [exact H6 | apply Hstrict, H6]].
  - split; [exact H7 | split; [exact H8 | apply Hstrict, H8]].
  - vm_compute. reflexivity.
Qed.

Lemma physical_sizes_within_one_pixel_witness :
  144 * 190 <= 96 * button_diameter_physical (world_at 144)
  /\ 96 * (button_diameter_physical (world_at 144) - 1) <= 144 * 190.
Proof.
  pose proof (physical_sizes_within_one_pixel (world_at 144)) as H.
  cbv zeta beta in H.
  destruct H as ((H1 & H2 & _) & _).
  - unfold dpi_in_range. simpl. lia.
  - split; assumption.
Defined.

(** X15. On a monitor at least as wide and high as the indicator buffer,
    the indicator is blitted entirely inside the monitor; on a monitor
    with room for the clock buffer and its margin, so is the clock. *)
Theorem buffers_inside_large_monitor (w : world) (r : Rect) :
  dpi_in_range w ->
  rect_in_range r ->
  let d := button_diameter_physical w in
  let cw := clock_width_physical w in
  let ch := clock_height_physical w in
  let m := margin_physical w in
  (d <= rect_width r -> d <= rect_height r ->
   rect_x r <= fst (indicator_position w r)
   /\ fst (indicator_position w r) + d <= rect_x r + rect_width r
   /\ rect_y r <= snd (indicator_position w r)
   /\ snd (indicator_position w r) + d <= rect_y r + rect_height r)
  /\ (cw + m <= rect_width r -> ch + m <= rect_height r ->
      rect_x r <= fst (clock_position w r)
      /\ fst (clock_position w r) + cw <= rect_x r + rect_width r
      /\ rect_y r <= snd (clock_position w r)
      /\ snd (clock_position w r) + ch <= rect_y r + rect_height r).
Proof.
  intros Hdpi (Hx & Hy & Hw & Hh) d cw ch m.
  destruct (physical_sizes w Hdpi) as (Hd & Hcw & Hch & Hm).
  subst d cw ch m.
  unfold indicator_position, clock_position. cbn [fst snd].
  split.
  - intros Hwide Hhigh.
    rewrite !int_div_2 by lia.
    unfold int_add, int_sub. drop_to_int.
    repeat split; div_lia.
  - intros Hwide Hhigh.
    unfold int_add, int_sub. drop_to_int.
    repeat split; lia.
Qed.

Lemma buffers_inside_large_monitor_witness :
  let w := sample_world 9 5 in
  let r := mkRect 1921 0 1280 1024 in
  rect_x r <= fst (indicator_position w r)
  /\ fst (indicator_position w r) + button_diameter_physical w
     <= rect_x r + rect_width r.
Proof.
  intros w r.
  assert (Hdpi : dpi_in_range w) by (unfold dpi_in_range; simpl; lia).
  assert (Hr : rect_in_range r) by (repeat constructor; simpl; lia).
  pose proof (buffers_inside_large_monitor w r Hdpi Hr) as H.
  cbv zeta in H. destruct H as [H _].
  destruct H as (H1 & H2 & _).
  - vm_compute. discriminate.
  - vm_compute. discriminate.
  - split; assumption.
Defined.

(** ** Presenting and clearing *)

Lemma presented_redraw (P : Platform) (w : world) (p : process P)
  (rest : list x_request) :
  presented (snd (redraw_screen w p) ++ rest) = presented rest.
Proof.
  unfold redraw_screen.
  destruct (bg_pixmap (vars p) =? XCB_NONE).
  - destruct (create_bg_pixmap P (server p) (last_resolution (vars p))
                               (color (vars p))) as [id server1].
    cbn [fst bg_pixmap last_resolution set_bg_pixmap win].
    destruct (draw_image P (set_bg_pixmap id (vars p)) w (prng p) id
                         (last_resolution (vars p))) as [calls prng1].
    simpl. rewrite !Z.eqb_refl. reflexivity.
  - destruct (draw_image P (vars p) w (prng p) (bg_pixmap (vars p))
                         (last_resolution (vars p))) as [calls prng1].
    simpl. rewrite !Z.eqb_refl. reflexivity.
Qed.

(** X16. In every sequence of redraw_screen, clear_indicator,
    free_bg_pixmap and changes made elsewhere, each frame is presented at
    once: draw_image is followed by the request that makes the same
    pixmap the window background, a clear of the whole of the resolution
    the frame was drawn for, and a flush; there are as many frames as
    calls of redraw_screen and clear_indicator. *)
Theorem every_frame_is_presented
  (P : Platform) (steps : list step) (p : process P) :
  presented (snd (run steps p)) = true
  /\ List.length (frames (snd (run steps p)))
     = List.length (filter draws steps).
Proof.
  revert p. induction steps as [|s rest IH]; intros p.
  - split; reflexivity.
  - simpl.
    assert (Hstep : (forall l, presented (snd (perform s p) ++ l) = presented l)
                    /\ List.length (frames (snd (perform s p)))
                       = if draws s then 1%nat else 0%nat).
    { destruct s as [w | w | | update]; simpl.
      - split; [apply presented_redraw|].
        destruct (redraw_screen_frame P w p) as (_ & _ & Hf).
        rewrite Hf. reflexivity.
      - unfold clear_indicator. split.
        + intros l. apply presented_redraw.
        + match goal with
          | |- context [redraw_screen w ?q] =>
              destruct (redraw_screen_frame P w q) as (_ & _ & Hf)
          end.
          rewrite Hf. reflexivity.
      - split; reflexivity.
      - split; reflexivity. }
    destruct Hstep as [Hpres Hcount].
    destruct (perform s p) as [p1 log1]. cbn [snd] in Hpres, Hcount.
    specialize (IH p1).
    destruct (run rest p1) as [p2 log2]. cbn [snd] in IH |- *.
    destruct IH as [IHpres IHcount].
    split.
    + rewrite Hpres. exact IHpres.
    + unfold frames in *. rewrite flat_map_app, length_app.
      rewrite Hcount, IHcount.
      destruct (draws s); reflexivity.
Qed.

(** X17. Every frame starts on the pixmap by filling the whole
    resolution with the fill colour, before anything else is drawn there;
    without an image nothing but the compositing follows, whatever the
    tile flag says, and with an image it is painted once at the origin or
    used as a repeating pattern over the whole resolution. *)
Theorem frame_starts_with_full_fill
  (P : Platform) (g : globals) (w : world) (rs : rand_state P)
  (pixmap : Z) (resolution : Z * Z) :
  let whole :=
    cairo_rectangle 0 0 (inject_Z (fst resolution))
                    (inject_Z (snd resolution)) in
  calls_on xcb_ctx (fst (draw_image P g w rs pixmap resolution))
  = [cairo_xcb_surface_create pixmap (fst resolution) (snd resolution);
     cairo_set_source_rgb (fill_color (color g)); whole; cairo_fill]
    ++ (if img g
        then if tile g
             then [cairo_set_source_repeat_pattern img_surface; whole;
                   cairo_fill]
             else [cairo_set_source_surface img_surface 0 0; cairo_paint]
        else [])
    ++ composite g w.
Proof.
  intros whole. subst whole. unfold draw_image.
  destruct (draw_indicator P g w rs) as [indicator rs']. cbn [fst].
  rewrite !calls_on_app.
  rewrite !calls_on_same.
  rewrite !(calls_on_other xcb_ctx) by reflexivity.
  unfold draw_background.
  destruct (img g), (tile g); reflexivity.
Qed.
